(** * MipMapGenerator: the FreeImage codec bridge (Common/UtilNPP/ImageIO.h)
      and the mip level constructor (src/MipMapChunk.h)

    A shallow embedding of the two headers.  The C++ code talks to two
    external libraries, FreeImage (the codec) and NPP (the GPU resize
    primitive); both are taken as parameters.  Everything the headers do
    themselves (format detection order, assertions, the row copy loops and
    their pointer arithmetic, the order of side effects) is written out. *)

From Stdlib Require Import ZArith Lia.
From stdpp Require Import base numbers list gmap strings.

Local Open Scope Z_scope.

(** ** Machine integers *)

(** [unsigned int] and [int] are 32 bits wide on every platform the project
    targets; values are kept in [Z] and the conversions are written out. *)
Definition wrap_uint (z : Z) : Z := z mod 2 ^ 32.
Definition wrap_int (z : Z) : Z := (z + 2 ^ 31) mod 2 ^ 32 - 2 ^ 31.
Definition INT_MAX : Z := 2 ^ 31 - 1.
Definition INT_MIN : Z := - 2 ^ 31.

Definition Npp8u := Byte.byte.

(** ** Outcomes of a C++ call *)

(** [npp::Exception]: the single exception class used by both headers. *)
Inductive Exception := NppException (sMessage : string).

(** Executions on which the C++ standard puts no requirement. *)
Inductive UB :=
| UninitializedRead (var : string)
| OutOfBounds
| SignedOverflow
| MissingReturn.

Inductive Result (A : Type) :=
| Ok (a : A)
| Throw (e : Exception)
| Undef (u : UB).
Arguments Ok {A} a.
Arguments Throw {A} e.
Arguments Undef {A} u.

(** A computation over a state [S]: the state it leaves is the state at the
    point where it returned, threw, or ran into undefined behaviour. *)
Definition M (S A : Type) : Type := S → Result A * S.

Definition ret {S A} (a : A) : M S A := λ s, (Ok a, s).
Definition bind {S A B} (m : M S A) (k : A → M S B) : M S B :=
  λ s, match m s with
       | (Ok a, s') => k a s'
       | (Throw e, s') => (Throw e, s')
       | (Undef u, s') => (Undef u, s')
       end.
Definition throw {S A} (e : Exception) : M S A := λ s, (Throw e, s).
Definition undef {S A} (u : UB) : M S A := λ s, (Undef u, s).
Definition get {S} : M S S := λ s, (Ok s, s).

Notation "'do' x <- m ; k" := (bind m (λ x, k))
  (at level 10, x name, m at level 100, k at level 200).
Notation "'do' ' p <- m ; k" := (bind m (λ x, match x with p => k end))
  (at level 10, p pattern, m at level 100, k at level 200).
Notation "'run' m ; k" := (bind m (λ _, k))
  (at level 10, m at level 100, k at level 200).

(** ** Pitched pixel memory *)

(** A pixel block is a flat list of bytes; a pointer into it is a byte
    offset.  [memcpy] outside either block is undefined, hence [None]. *)
Definition memcpy (dst : list Npp8u) (d : Z) (src : list Npp8u) (s : Z)
    (n : Z) : option (list Npp8u) :=
  if decide (0 ≤ n ∧ 0 ≤ d ∧ d + n ≤ Z.of_nat (length dst)
               ∧ 0 ≤ s ∧ s + n ≤ Z.of_nat (length src))
  then Some (take (Z.to_nat d) dst
             ++ take (Z.to_nat n) (drop (Z.to_nat s) src)
             ++ drop (Z.to_nat (d + n)) dst)
  else None.

(** The [len] bytes of row [i] of a block with stride [pitch]. *)
Definition row (data : list Npp8u) (pitch len i : Z) : list Npp8u :=
  take (Z.to_nat len) (drop (Z.to_nat (i * pitch)) data).

(** [npp::ImagePacked]: the common shape of [ImageCPU_8u_C1],
    [ImageCPU_8u_C4] and [ImageNPP_8u_C4]. *)
Record ImagePacked := {
  width : Z;
  height : Z;
  pitch : Z;
  data : list Npp8u
}.

Abbreviation ImageCPU_8u_C1 := ImagePacked (only parsing).
Abbreviation ImageCPU_8u_C4 := ImagePacked (only parsing).
Abbreviation ImageNPP_8u_C4 := ImagePacked (only parsing).

(** A buffer as the data model describes it: positive size, rows of
    [channels] bytes per pixel inside the stride, and a block of exactly
    [pitch * height] bytes whose size fits the 32-bit arithmetic the
    headers do on it. *)
Record image_valid (channels : Z) (im : ImagePacked) : Prop := {
  valid_width : 0 < width im;
  valid_height : 0 < height im;
  valid_pitch : width im * channels ≤ pitch im;
  valid_data : Z.of_nat (length (data im)) = pitch im * height im;
  valid_range : pitch im * height im < 2 ^ 31
}.

(** ** FreeImage *)

(** The format tags of FreeImage.h, in its order, up to [FIF_TIFF]; the
    headers name [FIF_UNKNOWN], [FIF_PGM] and [FIF_PNG]. *)
Inductive FREE_IMAGE_FORMAT :=
| FIF_UNKNOWN | FIF_BMP | FIF_ICO | FIF_JPEG | FIF_JNG | FIF_KOALA | FIF_LBM
| FIF_MNG | FIF_PBM | FIF_PBMRAW | FIF_PCD | FIF_PCX | FIF_PGM | FIF_PGMRAW
| FIF_PNG | FIF_PPM | FIF_PPMRAW | FIF_RAS | FIF_TARGA | FIF_TIFF.

#[global] Instance FREE_IMAGE_FORMAT_eq_dec : EqDecision FREE_IMAGE_FORMAT.
Proof. solve_decision. Defined.

Inductive FREE_IMAGE_COLOR_TYPE :=
| FIC_MINISWHITE | FIC_MINISBLACK | FIC_RGB | FIC_PALETTE | FIC_RGBALPHA
| FIC_CMYK.

#[global] Instance FREE_IMAGE_COLOR_TYPE_eq_dec :
  EqDecision FREE_IMAGE_COLOR_TYPE.
Proof. solve_decision. Defined.

(** What the headers observe of a [FIBITMAP]: its color type, bit depth,
    size, stride and the scan lines, stored bottom line first. *)
Record FIBITMAP := {
  fi_color_type : FREE_IMAGE_COLOR_TYPE;
  fi_bpp : Z;
  fi_width : Z;
  fi_height : Z;
  fi_pitch : Z;
  fi_bits : list Npp8u
}.

(** A [FIBITMAP*] is [None] when null.  The accessors return 0 on a null
    bitmap, as FreeImage's do. *)
Definition FreeImage_GetWidth (dib : option FIBITMAP) : Z :=
  from_option fi_width 0 dib.
Definition FreeImage_GetHeight (dib : option FIBITMAP) : Z :=
  from_option fi_height 0 dib.
Definition FreeImage_GetPitch (dib : option FIBITMAP) : Z :=
  from_option fi_pitch 0 dib.
Definition FreeImage_GetBPP (dib : option FIBITMAP) : Z :=
  from_option fi_bpp 0 dib.
Definition FreeImage_GetBits (dib : option FIBITMAP) : list Npp8u :=
  from_option fi_bits [] dib.

(** A bitmap FreeImage hands out: the scan lines fit the stride and the
    block holds [fi_pitch * fi_height] bytes. *)
Record FIBITMAP_wf (b : FIBITMAP) : Prop := {
  wf_width : 0 ≤ fi_width b;
  wf_height : 0 ≤ fi_height b;
  wf_bpp : 0 ≤ fi_bpp b;
  wf_pitch : fi_width b * fi_bpp b ≤ 8 * fi_pitch b;
  wf_bits : Z.of_nat (length (fi_bits b)) = fi_pitch b * fi_height b;
  wf_range : fi_pitch b * fi_height b < 2 ^ 31
}.

(** What [FreeImage_Load] does with a file: a bitmap, or a null pointer,
    possibly after reporting a message through the output-message
    callback. *)
Inductive LoadResult :=
| Loaded (dib : FIBITMAP)
| LoadFailed (zMessage : option string).

(** A file on disk, as far as FreeImage can tell: the format its signature
    identifies and what loading it as a given format yields. *)
Record File := {
  file_type : FREE_IMAGE_FORMAT;
  file_load : FREE_IMAGE_FORMAT → LoadResult
}.

(** The parts of the library that do not depend on the disk.  The headers
    fix none of this, so all of it is a parameter.  [Encode] is the file a
    successful [FreeImage_Save] writes, [None] when the save fails.  How the
    library fails is left open as well: [OpenFailure] is the message
    [FreeImage_Load] reports, if any, when there is no file to open at a
    path, and [SaveFailure] is the message a failed [FreeImage_Save]
    reports, if any, together with what it leaves at the path (a truncated
    file, or [None] when the path is as it was). *)
Record FreeImageLib := {
  GetFIFFromFilename : string → FREE_IMAGE_FORMAT;
  FIFSupportsReading : FREE_IMAGE_FORMAT → bool;
  ConvertTo32Bits : FIBITMAP → option FIBITMAP;
  Allocate : Z → Z → Z → option FIBITMAP;
  Encode : FREE_IMAGE_FORMAT → FIBITMAP → option File;
  OpenFailure : string → option string;
  SaveFailure : FREE_IMAGE_FORMAT → FIBITMAP → option string * option File
}.

(** The disk, whether [FreeImageErrorHandler] has been installed with
    [FreeImage_SetOutputMessage], and the [FreeImage_Save] calls made so
    far (format and path, oldest first). *)
Record World := {
  files : gmap string File;
  output_message : bool;
  save_calls : list (FREE_IMAGE_FORMAT * string)
}.

(** A local variable declared without an initialiser holds no value until
    it is assigned. *)
Inductive Local (A : Type) :=
| Indeterminate
| Value (a : A).
Arguments Indeterminate {A}.
Arguments Value {A} a.

Definition read_local {S A} (var : string) (x : Local A) : M S A :=
  match x with
  | Value a => ret a
  | Indeterminate => undef (UninitializedRead var)
  end.

(** Modelled from the spec: the assertion macros [NPP_ASSERT],
    [NPP_ASSERT_NOT_NULL] and [NPP_ASSERT_MSG] of Exceptions.h, which is not
    among the sources.  Section 7: an error is raised at the point of
    occurrence and propagates to the caller, so a failed assertion throws
    [npp::Exception] and a true one does nothing.  [NPP_ASSERT_NOT_NULL]
    hands back what the pointer it checked points to. *)
Definition NPP_ASSERT {S} (C : bool) (text : string) : M S unit :=
  if C then ret tt else throw (NppException text).
Definition NPP_ASSERT_NOT_NULL {S A} (P : option A) (text : string)
    : M S A :=
  match P with
  | Some a => ret a
  | None => throw (NppException text)
  end.
Definition NPP_ASSERT_MSG {S} (C : bool) (msg : string) : M S unit :=
  NPP_ASSERT C msg.

(** ImageIO.h, lines 43-47: the handler throws whatever FreeImage reports. *)
Definition FreeImageErrorHandler {S} (oFif : FREE_IMAGE_FORMAT)
    (zMessage : string) : M S unit :=
  throw (NppException zMessage).

(** [FreeImage_GetColorType] of a null bitmap is [FIC_MINISBLACK]. *)
Definition FreeImage_GetColorType (dib : option FIBITMAP)
    : FREE_IMAGE_COLOR_TYPE :=
  from_option fi_color_type FIC_MINISBLACK dib.

Definition set_files (fs : gmap string File) (w : World) : World :=
  {| files := fs; output_message := output_message w;
     save_calls := save_calls w |}.
Definition set_output_message (b : bool) (w : World) : World :=
  {| files := files w; output_message := b; save_calls := save_calls w |}.
Definition log_save (fif : FREE_IMAGE_FORMAT) (name : string) (w : World)
    : World :=
  {| files := files w; output_message := output_message w;
     save_calls := save_calls w ++ [(fif, name)] |}.

(** The one handler this program ever installs is [FreeImageErrorHandler]. *)
Definition FreeImage_SetOutputMessage : M World unit :=
  λ w, (Ok tt, set_output_message true w).

(** A path with no file behind it has no signature. *)
Definition FreeImage_GetFileType (name : string) : M World FREE_IMAGE_FORMAT :=
  λ w, (Ok (from_option file_type FIF_UNKNOWN (files w !! name)), w).

(** Runs a computation on the disk inside a larger state that has the
    caller's image next to it. *)
Definition in_world {I A} (m : M World A) : M (I * World) A :=
  λ '(im, w), let '(r, w') := m w in (r, (im, w')).

(** The row loops of [loadImage(ImageCPU_8u_C1&)] and of both [saveImage]
    functions: [n] times copy [len] bytes from [pSrcLine] to [pDstLine] and
    advance the two pointers by their (signed) steps. *)
Fixpoint copy_lines (n : nat) (src : list Npp8u) (pSrcLine srcStep : Z)
    (dst : list Npp8u) (pDstLine dstStep : Z) (len : Z)
    : option (list Npp8u) :=
  match n with
  | O => Some dst
  | S n' =>
      match memcpy dst pDstLine src pSrcLine len with
      | Some dst' =>
          copy_lines n' src (pSrcLine + srcStep) srcStep
                     dst' (pDstLine + dstStep) dstStep len
      | None => None
      end
  end.

(** The row loop of [loadImage(ImageCPU_8u_C4* )], lines 124-131: offsets are
    recomputed from the two indices in [unsigned int] arithmetic. *)
Fixpoint copy_rows_flipped (n : nat) (srcIndex destIndex : Z)
    (h_img : list Npp8u) (srcPitch : Z) (dst : list Npp8u) (dstPitch : Z)
    (len : Z) : option (list Npp8u) :=
  match n with
  | O => Some dst
  | S n' =>
      match memcpy dst (wrap_uint (srcIndex * dstPitch))
                   h_img (wrap_uint (destIndex * srcPitch)) len with
      | Some dst' =>
          copy_rows_flipped n' (srcIndex + 1) (destIndex - 1)
                            h_img srcPitch dst' dstPitch len
      | None => None
      end
  end.

Definition lift_copy {S} (r : option (list Npp8u)) : M S (list Npp8u) :=
  match r with
  | Some pixels => ret pixels
  | None => undef OutOfBounds
  end.

Definition set_data (pixels : list Npp8u) (im : ImagePacked) : ImagePacked :=
  {| width := width im; height := height im; pitch := pitch im;
     data := pixels |}.
Definition set_bits (bits : list Npp8u) (b : FIBITMAP) : FIBITMAP :=
  {| fi_color_type := fi_color_type b; fi_bpp := fi_bpp b;
     fi_width := fi_width b; fi_height := fi_height b;
     fi_pitch := fi_pitch b; fi_bits := bits |}.

Section ImageIO.

(** The FreeImage library and the host allocator behind [ImageCPU]:
    asked for [nWidth] by [nHeight] pixels of [channels] bytes it returns
    a stride and a block, or nothing when memory is short. *)
Variable FI : FreeImageLib.
Variable host_malloc2D : Z → Z → Z → option (Z * list Npp8u).

(** A message the library reports reaches the handler if one is
    installed, and the handler of this program throws; otherwise the failed
    call goes on to return its null or false. *)
Definition report {A} (fif : FREE_IMAGE_FORMAT) (zMessage : option string)
    (failure : A) : M World A :=
  do w <- get;
  match zMessage with
  | Some zMessage =>
      if output_message w
      then run FreeImageErrorHandler fif zMessage; ret failure
      else ret failure
  | None => ret failure
  end.

(** [FreeImage_Load] decodes the file at the path as the format it is told
    to.  What the library reports for a file it cannot decode is part of
    the file ([file_load]); what it reports when there is no file is
    [OpenFailure]. *)
Definition FreeImage_Load (fif : FREE_IMAGE_FORMAT) (name : string)
    : M World (option FIBITMAP) :=
  do w <- get;
  match files w !! name with
  | Some f =>
      match file_load f fif with
      | Loaded dib => ret (Some dib)
      | LoadFailed zMessage => report fif zMessage None
      end
  | None => report fif (OpenFailure FI name) None
  end.

(** [FreeImage_Save] encodes in the format it is told to and never looks
    at the extension of the path.  A save that fails may leave something
    at the path and may report a message; both are the library's. *)
Definition FreeImage_Save (fif : FREE_IMAGE_FORMAT) (dib : FIBITMAP)
    (name : string) : M World bool :=
  λ w, match Encode FI fif dib with
       | Some f => (Ok true, set_files (<[name := f]> (files w))
                                       (log_save fif name w))
       | None =>
           let '(zMessage, leftover) := SaveFailure FI fif dib in
           report fif zMessage false
             (match leftover with
              | Some f => set_files (<[name := f]> (files w))
                                    (log_save fif name w)
              | None => log_save fif name w
              end)
       end.

(** Modelled from the spec: the constructor [ImageCPU(width, height)] of
    ImagesCPU.h, which is not among the sources.  Section 4.1:
    construct(width, height) allocates a pitched region sized to at least
    width*bytesPerPixel per row; fails with AllocationError if
    width <= 0 || height <= 0 or the host allocator cannot satisfy the
    request. *)
Definition ImageCPU_new {S} (channels nWidth nHeight : Z)
    : M S ImagePacked :=
  if decide (nWidth ≤ 0 ∨ nHeight ≤ 0)
  then throw (NppException "AllocationError")
  else match host_malloc2D nWidth nHeight channels with
       | Some (nPitch, block) =>
           ret {| width := nWidth; height := nHeight; pitch := nPitch;
                  data := block |}
       | None => throw (NppException "AllocationError")
       end.

(** ImageIO.h, lines 52-99.  The state is the caller's [rImage] and the
    disk. *)
Definition loadImage_8u_C1 (rFileName : string)
    : M (ImageCPU_8u_C1 * World) unit :=
  run in_world FreeImage_SetOutputMessage;
  do eFormat <- in_world (FreeImage_GetFileType rFileName);
  let eFormat :=
    if decide (eFormat = FIF_UNKNOWN)
    then GetFIFFromFilename FI rFileName else eFormat in
  run NPP_ASSERT (bool_decide (eFormat ≠ FIF_UNKNOWN))
                 "eFormat != FIF_UNKNOWN";
  do pBitmap <-
    (if FIFSupportsReading FI eFormat
     then do p <- in_world (FreeImage_Load eFormat rFileName); ret (Value p)
     else ret Indeterminate);
  do pBitmap <- read_local "pBitmap" pBitmap;
  run NPP_ASSERT (bool_decide (pBitmap ≠ None)) "pBitmap != 0";
  run NPP_ASSERT
        (bool_decide (FreeImage_GetColorType pBitmap = FIC_MINISBLACK))
        "FreeImage_GetColorType(pBitmap) == FIC_MINISBLACK";
  run NPP_ASSERT (bool_decide (FreeImage_GetBPP pBitmap = 8))
                 "FreeImage_GetBPP(pBitmap) == 8";
  do oImage <- ImageCPU_new 1 (FreeImage_GetWidth pBitmap)
                              (FreeImage_GetHeight pBitmap);
  let nSrcPitch := FreeImage_GetPitch pBitmap in
  let pSrcLine :=
    wrap_uint (nSrcPitch * wrap_uint (FreeImage_GetHeight pBitmap - 1)) in
  let pDstLine := 0 in
  let nDstPitch := wrap_uint (pitch oImage) in
  do pixels <- lift_copy
    (copy_lines (Z.to_nat (height oImage))
                (FreeImage_GetBits pBitmap) pSrcLine (- nSrcPitch)
                (data oImage) pDstLine nDstPitch (width oImage * 1));
  (* oImage.swap(rImage) *)
  λ '(_, w), (Ok tt, (set_data pixels oImage, w)).

(** ImageIO.h, lines 102-135.  The state is the caller's [*outCPUMemory]
    and the disk.  The body ends after the assignment without a [return]
    statement. *)
Definition loadImage_8u_C4 (fileName : string)
    : M (ImageCPU_8u_C4 * World) bool :=
  do dib <- in_world (FreeImage_Load FIF_PNG fileName);
  match dib with
  | None => ret false
  | Some d =>
      let dib32 := ConvertTo32Bits FI d in
      let width' := wrap_int (FreeImage_GetWidth dib32) in
      let height' := wrap_int (FreeImage_GetHeight dib32) in
      let h_img := FreeImage_GetBits dib32 in
      do oHostSrc <- ImageCPU_new 4 width' height';
      let destIndex := height' - 1 in
      do len <-
        (if decide (INT_MIN ≤ width' * 4 ≤ INT_MAX)
         then ret (width' * 4) else undef SignedOverflow);
      do pixels <- lift_copy
        (copy_rows_flipped (Z.to_nat height') 0 destIndex
                           h_img (FreeImage_GetPitch dib32)
                           (data oHostSrc) (pitch oHostSrc) len);
      (* *outCPUMemory = oHostSrc *)
      run (λ '(_, w), (Ok tt, (set_data pixels oHostSrc, w)));
      undef MissingReturn
  end.

(** ImageIO.h, lines 138-161. *)
Definition saveImage_8u_C1 (rFileName : string) (rImage : ImageCPU_8u_C1)
    : M World unit :=
  do pResultBitmap <- NPP_ASSERT_NOT_NULL
    (Allocate FI (width rImage) (height rImage) 8) "pResultBitmap";
  let nDstPitch := fi_pitch pResultBitmap in
  let pDstLine := wrap_uint (nDstPitch * (height rImage - 1)) in
  let pSrcLine := 0 in
  let nSrcPitch := wrap_uint (pitch rImage) in
  do bits <- lift_copy
    (copy_lines (Z.to_nat (height rImage))
                (data rImage) pSrcLine nSrcPitch
                (fi_bits pResultBitmap) pDstLine (- nDstPitch)
                (width rImage * 1));
  do bSuccess <- FreeImage_Save FIF_PGM (set_bits bits pResultBitmap) rFileName;
  NPP_ASSERT_MSG bSuccess "Failed to save result image.".

(** ImageIO.h, lines 164-187. *)
Definition saveImage_8u_C4 (rFileName : string) (rImage : ImageCPU_8u_C4)
    : M World unit :=
  do pResultBitmap <- NPP_ASSERT_NOT_NULL
    (Allocate FI (width rImage) (height rImage) (8 * 4)) "pResultBitmap";
  let nDstPitch := fi_pitch pResultBitmap in
  let pDstLine := wrap_uint (nDstPitch * (height rImage - 1)) in
  let pSrcLine := 0 in
  let nSrcPitch := wrap_uint (pitch rImage) in
  do bits <- lift_copy
    (copy_lines (Z.to_nat (height rImage))
                (data rImage) pSrcLine nSrcPitch
                (fi_bits pResultBitmap) pDstLine (- nDstPitch)
                (width rImage * 4));
  do bSuccess <- FreeImage_Save FIF_PNG (set_bits bits pResultBitmap) rFileName;
  NPP_ASSERT_MSG bSuccess "Failed to save result image.".

End ImageIO.

(** ** NPP *)

Definition NppStatus := Z.
Definition NPP_SUCCESS : NppStatus := 0.

(** Interpolation modes of nppdefs.h. *)
Definition NPPI_INTER_NN : Z := 1.
Definition NPPI_INTER_LINEAR : Z := 2.
Definition NPPI_INTER_CUBIC : Z := 4.

Record NppiSize := { size_width : Z; size_height : Z }.
Record NppiRect := { x : Z; y : Z; rect_width : Z; rect_height : Z }.

(** An opaque token naming a command queue. *)
Definition NppStreamContext := Z.

(** The ten arguments of one [nppiResize_8u_C4R_Ctx] call. *)
Record ResizeCall := {
  pSrc : list Npp8u;
  nSrcStep : Z;
  oSrcSize : NppiSize;
  oSrcRectROI : NppiRect;
  pDst : list Npp8u;
  nDstStep : Z;
  oDstSize : NppiSize;
  oDstRectROI : NppiRect;
  eInterpolation : Z;
  nppStreamCtx : NppStreamContext
}.

(** The device: its allocator (a stride and a block, or nothing) and the
    resize primitive (a status and what the destination block then
    holds). *)
Record NPPLib := {
  nppiMalloc_8u_C4 : Z → Z → option (Z * list Npp8u);
  nppiResize_8u_C4R_Ctx : ResizeCall → NppStatus * list Npp8u
}.

Record MipMapChunk := {
  GPUMemory : ImageNPP_8u_C4;
  Size : NppiSize
}.

Section MipMap.

Variable NPP : NPPLib.

(** Modelled from the spec: the constructor [ImageNPP_8u_C4(width, height)]
    of ImagesNPP.h, which is not among the sources.  Section 3: width and
    height of an image buffer are positive integers and the buffer is
    allocated at construction (fails with AllocationError if the requested
    dimensions cannot be satisfied).  Section 4.2: construct(width, height)
    allocates device memory sized per device-pitch rules and fails with
    AllocationError on allocation failure. *)
Definition ImageNPP_8u_C4_new {S} (nWidth nHeight : Z) : M S ImageNPP_8u_C4 :=
  if decide (nWidth ≤ 0 ∨ nHeight ≤ 0)
  then throw (NppException "AllocationError")
  else match nppiMalloc_8u_C4 NPP nWidth nHeight with
       | Some (nPitch, block) =>
           ret {| width := nWidth; height := nHeight; pitch := nPitch;
                  data := block |}
       | None => throw (NppException "AllocationError")
       end.

(** Modelled from the spec: the macro [NPP_CHECK_NPP] of Exceptions.h, which
    is not among the sources.  Section 6: the primitive returns Unit or a
    DeviceError; sections 4.4 and 7: a failure it reports is propagated to
    the caller, not retried. *)
Definition NPP_CHECK_NPP {S} (eStatusNPP : NppStatus) : M S unit :=
  NPP_ASSERT (bool_decide (eStatusNPP = NPP_SUCCESS))
             "eStatusNPP == NPP_SUCCESS".

(** One invocation of the primitive; the state is the list of calls made
    so far, oldest first. *)
Definition resize (c : ResizeCall)
    : M (list ResizeCall) (NppStatus * list Npp8u) :=
  λ calls, (Ok (nppiResize_8u_C4R_Ctx NPP c), calls ++ [c]).

(** MipMapChunk.h, lines 20-36.  [eInterpolation'] is [None] when the
    caller leaves the defaulted argument out. *)
Definition MipMapChunk_new (srcImage : ImageNPP_8u_C4) (width' height' : Z)
    (streamCtx : NppStreamContext) (eInterpolation' : option Z)
    : M (list ResizeCall) MipMapChunk :=
  let eInterpolation' := default NPPI_INTER_LINEAR eInterpolation' in
  let srcSize :=
    {| size_width := width srcImage; size_height := height srcImage |} in
  let srcROI :=
    {| x := 0; y := 0; rect_width := size_width srcSize;
       rect_height := size_height srcSize |} in
  let Size' := {| size_width := width'; size_height := height' |} in
  let roi :=
    {| x := 0; y := 0; rect_width := size_width Size';
       rect_height := size_height Size' |} in
  do GPUMemory' <- ImageNPP_8u_C4_new (size_width Size') (size_height Size');
  do '(eStatusNPP, pixels) <- resize
    {| pSrc := data srcImage; nSrcStep := pitch srcImage;
       oSrcSize := srcSize; oSrcRectROI := srcROI;
       pDst := data GPUMemory'; nDstStep := pitch GPUMemory';
       oDstSize := Size'; oDstRectROI := roi;
       eInterpolation := eInterpolation'; nppStreamCtx := streamCtx |};
  run NPP_CHECK_NPP eStatusNPP;
  ret {| GPUMemory := set_data pixels GPUMemory'; Size := Size' |}.

End MipMap.

(** ** What the external libraries promise *)

(** The host allocator returns a stride that holds a row and a block of
    exactly [stride * height] bytes. *)
Definition host_malloc_wf
    (host_malloc2D : Z → Z → Z → option (Z * list Npp8u)) : Prop :=
  ∀ nWidth nHeight channels nPitch block,
    host_malloc2D nWidth nHeight channels = Some (nPitch, block) →
    nWidth * channels ≤ nPitch
    ∧ Z.of_nat (length block) = nPitch * nHeight
    ∧ nPitch * nHeight < 2 ^ 31.

(** Two bitmaps of the same size with the same pixels in every scan line;
    strides and padding may differ. *)
Definition same_pixels (bytes_per_pixel : Z) (b b' : FIBITMAP) : Prop :=
  fi_width b' = fi_width b ∧ fi_height b' = fi_height b ∧
  ∀ i, 0 ≤ i < fi_height b →
    row (fi_bits b') (fi_pitch b') (fi_width b * bytes_per_pixel) i
    = row (fi_bits b) (fi_pitch b) (fi_width b * bytes_per_pixel) i.

(** The codec contract the round trip relies on: [FreeImage_Allocate] hands
    out a well-formed bitmap of the size and depth asked for, and an 8-bit
    bitmap written as PGM is recognised by its signature and reads back as
    an 8-bit min-is-black bitmap with the same pixels. *)
Record FreeImage_contract (FI : FreeImageLib) : Prop := {
  Allocate_spec : ∀ w h bpp b,
    Allocate FI w h bpp = Some b →
    fi_width b = w ∧ fi_height b = h ∧ fi_bpp b = bpp ∧ FIBITMAP_wf b;
  PGM_reading : FIFSupportsReading FI FIF_PGM = true;
  PGM_lossless : ∀ b,
    FIBITMAP_wf b → fi_bpp b = 8 →
    ∃ f b', Encode FI FIF_PGM b = Some f
            ∧ file_type f = FIF_PGM
            ∧ file_load f FIF_PGM = Loaded b'
            ∧ FIBITMAP_wf b'
            ∧ fi_color_type b' = FIC_MINISBLACK
            ∧ fi_bpp b' = 8
            ∧ same_pixels 1 b b'
}.

(** ** Sample libraries, files and images *)

Module Sample.

(** A tight host allocator that zero-fills. *)
Definition malloc2D (nWidth nHeight channels : Z)
    : option (Z * list Npp8u) :=
  if decide (0 < nWidth ∧ 0 < nHeight ∧ 0 < channels
             ∧ nWidth * channels * nHeight < 2 ^ 31)
  then Some (nWidth * channels,
             replicate (Z.to_nat (nWidth * channels * nHeight)) Byte.x00)
  else None.

(** Scan lines are padded to four bytes, as FreeImage pads them. *)
Definition allocate (w h bpp : Z) : option FIBITMAP :=
  let p := (w * bpp + 31) / 32 * 4 in
  if decide (0 < w ∧ 0 < h ∧ 0 < bpp ∧ p * h < 2 ^ 31)
  then Some {| fi_color_type :=
                 if decide (bpp = 8) then FIC_MINISBLACK else FIC_RGB;
               fi_bpp := bpp; fi_width := w; fi_height := h;
               fi_pitch := p;
               fi_bits := replicate (Z.to_nat (p * h)) Byte.x00 |}
  else None.

(** Gray to BGRA: each gray byte becomes three equal channels and an
    opaque alpha. *)
Definition convert (b : FIBITMAP) : option FIBITMAP :=
  if decide (fi_bpp b = 32) then Some b
  else if decide (fi_bpp b = 8) then
    Some {| fi_color_type := FIC_RGB; fi_bpp := 32;
            fi_width := fi_width b; fi_height := fi_height b;
            fi_pitch := 4 * fi_width b;
            fi_bits :=
              i ← seqZ 0 (fi_height b);
              g ← row (fi_bits b) (fi_pitch b) (fi_width b) i;
              [g; g; g; Byte.xff] |}
  else None.

Definition as_gray (b : FIBITMAP) : FIBITMAP :=
  {| fi_color_type := FIC_MINISBLACK; fi_bpp := fi_bpp b;
     fi_width := fi_width b; fi_height := fi_height b;
     fi_pitch := fi_pitch b; fi_bits := fi_bits b |}.

(** A file remembers the format it was written in and the bitmap. *)
Definition stored (fif : FREE_IMAGE_FORMAT) (b : FIBITMAP) : File :=
  {| file_type := fif;
     file_load := λ f, if decide (f = fif) then Loaded b
                       else LoadFailed None |}.

Definition encode (fif : FREE_IMAGE_FORMAT) (b : FIBITMAP) : option File :=
  Some (stored fif (if decide (fif = FIF_PGM) then as_gray b else b)).

Definition lib : FreeImageLib :=
  {| GetFIFFromFilename := λ _, FIF_UNKNOWN;
     FIFSupportsReading := λ _, true;
     ConvertTo32Bits := convert;
     Allocate := allocate;
     Encode := encode;
     OpenFailure := λ _, Some "failed to open file";
     SaveFailure := λ _ _, (None, None) |}.

(** The same library with no plugin able to read. *)
Definition lib_no_reader : FreeImageLib :=
  {| GetFIFFromFilename := λ _, FIF_UNKNOWN;
     FIFSupportsReading := λ _, false;
     ConvertTo32Bits := convert;
     Allocate := allocate;
     Encode := encode;
     OpenFailure := λ _, Some "failed to open file";
     SaveFailure := λ _ _, (None, None) |}.

(** A 2 by 2 gray bitmap with stride 4; the bottom line (1, 2) is stored
    first, the top line (3, 4) last. *)
Definition gray2x2 : FIBITMAP :=
  {| fi_color_type := FIC_MINISBLACK; fi_bpp := 8;
     fi_width := 2; fi_height := 2; fi_pitch := 4;
     fi_bits := [Byte.x01; Byte.x02; Byte.x00; Byte.x00;
                 Byte.x03; Byte.x04; Byte.x00; Byte.x00] |}.

(** A 1 by 2 BGRA bitmap with stride 4. *)
Definition bgra1x2 : FIBITMAP :=
  {| fi_color_type := FIC_RGBALPHA; fi_bpp := 32;
     fi_width := 1; fi_height := 2; fi_pitch := 4;
     fi_bits := [Byte.x01; Byte.x02; Byte.x03; Byte.xff;
                 Byte.x04; Byte.x05; Byte.x06; Byte.xff] |}.

(** A 2 by 2 RGB bitmap, 24 bits per pixel, stride 8. *)
Definition rgb2x2 : FIBITMAP :=
  {| fi_color_type := FIC_RGB; fi_bpp := 24;
     fi_width := 2; fi_height := 2; fi_pitch := 8;
     fi_bits := replicate 16 Byte.x07 |}.

Definition disk : gmap string File :=
  <["gray.pgm" := stored FIF_PGM gray2x2]>
    (<["gray.png" := stored FIF_PNG gray2x2]>
       (<["rgba.png" := stored FIF_PNG bgra1x2]>
          (<["rgb.bmp" := stored FIF_BMP rgb2x2]> ∅))).

Definition world : World :=
  {| files := disk; output_message := false; save_calls := [] |}.

(** A host image that is not the result of any load. *)
Definition blank : ImagePacked :=
  {| width := 1; height := 1; pitch := 1; data := [Byte.x2a] |}.

(** A 2 by 2 gray host image with stride 3: top row (3, 4), bottom row
    (1, 2). *)
Definition host2x2 : ImageCPU_8u_C1 :=
  {| width := 2; height := 2; pitch := 3;
     data := [Byte.x03; Byte.x04; Byte.x63;
              Byte.x01; Byte.x02; Byte.x63] |}.

(** A 1 by 1 four-channel host image. *)
Definition host1x1 : ImageCPU_8u_C4 :=
  {| width := 1; height := 1; pitch := 4;
     data := [Byte.x0a; Byte.x0b; Byte.x0c; Byte.xff] |}.

(** A 4 by 4 device image. *)
Definition device4x4 : ImageNPP_8u_C4 :=
  {| width := 4; height := 4; pitch := 16;
     data := replicate 64 Byte.x10 |}.

Definition device_malloc (nWidth nHeight : Z) : option (Z * list Npp8u) :=
  malloc2D nWidth nHeight 4.

(** A device whose resize accepts every call and leaves the destination
    as it found it. *)
Definition npp : NPPLib :=
  {| nppiMalloc_8u_C4 := device_malloc;
     nppiResize_8u_C4R_Ctx := λ c, (NPP_SUCCESS, pDst c) |}.

(** A device whose resize always reports an error status. *)
Definition npp_failing : NPPLib :=
  {| nppiMalloc_8u_C4 := device_malloc;
     nppiResize_8u_C4R_Ctx := λ c, (-1000, pDst c) |}.

End Sample.

(** Whatever FreeImage decodes from the file at a path is a well-formed
    bitmap, and so is its 32-bit conversion, which has 32 bits per pixel. *)
Definition decodes_wf (FI : FreeImageLib) (w : World) (name : string)
    : Prop :=
  ∀ f fif d,
    files w !! name = Some f → file_load f fif = Loaded d →
    FIBITMAP_wf d
    ∧ ∀ b, ConvertTo32Bits FI d = Some b → FIBITMAP_wf b ∧ fi_bpp b = 32.

(** The format the gray loader settles on for a path: the signature of the
    file, or failing that the extension (ImageIO.h, lines 58-64). *)
Definition detected_format (FI : FreeImageLib) (name : string) (w : World)
    : FREE_IMAGE_FORMAT :=
  let eFormat := from_option file_type FIF_UNKNOWN (files w !! name) in
  if decide (eFormat = FIF_UNKNOWN) then GetFIFFromFilename FI name
  else eFormat.

(** A computation that never touches the caller's image, however it ends. *)
Definition keeps_image {I A} (m : M (I * World) A) : Prop :=
  ∀ s r s', m s = (r, s') → s'.1 = s.1.

(** A computation that leaves the caller's image alone on the outcomes in
    [P]. *)
Definition keeps_image_on {I A} (P : Result A → Prop) (m : M (I * World) A)
    : Prop :=
  ∀ s r s', m s = (r, s') → P r → s'.1 = s.1.

(** The outcomes by which a loader reports failure: an exception, or the
    value [false]. *)
Definition load_failed {A} (r : Result A) : Prop := ∃ e, r = Throw e.
Definition load_rejected (r : Result bool) : Prop :=
  r = Ok false ∨ ∃ e, r = Throw e.


(** ** Device copies of gray images (ImageIO.h, lines 189-207) *)

(** Runs a computation that works on a local image, handing the local back
    with the result; the caller's own image is out of its reach. *)
Definition with_local {I L A} (l : L) (m : M (L * World) A)
    : M (I * World) (A * L) :=
  λ '(im, w),
    let '(r, (l', w')) := m (l, w) in
    (match r with
     | Ok a => Ok (a, l')
     | Throw e => Throw e
     | Undef u => Undef u
     end, (im, w')).

Section ImageIO_NPP.

(** The FreeImage library, the host allocator, the device allocator for
    one-channel images (same shape as the host one) and the value of a
    default-constructed [ImageCPU_8u_C1]. *)
Variable FI : FreeImageLib.
Variable host_malloc2D : Z → Z → Z → option (Z * list Npp8u).
Variable device_malloc2D : Z → Z → Z → option (Z * list Npp8u).
Variable ImageCPU_default : ImagePacked.

(** Modelled from the spec: the constructor
    [ImageNPP_8u_C1(const ImageCPU_8u_C1&)] of ImagesNPP.h, which is not
    among the sources.  Section 4.2: constructFrom(hostBuffer) allocates a
    device buffer of matching dimensions and performs a row-by-row copy from
    host memory to device memory, translating between the two pitches;
    failure modes AllocationError and TransferError (invalid region). *)
Definition ImageNPP_8u_C1_from_host {S} (rImage : ImageCPU_8u_C1)
    : M S ImagePacked :=
  if decide (width rImage ≤ 0 ∨ height rImage ≤ 0)
  then throw (NppException "AllocationError")
  else match device_malloc2D (width rImage) (height rImage) 1 with
       | Some (nPitch, block) =>
           match copy_lines (Z.to_nat (height rImage))
                            (data rImage) 0 (pitch rImage)
                            block 0 nPitch (width rImage * 1) with
           | Some pixels =>
               ret {| width := width rImage; height := height rImage;
                      pitch := nPitch; data := pixels |}
           | None => throw (NppException "TransferError")
           end
       | None => throw (NppException "AllocationError")
       end.

(** Modelled from the spec: [ImageNPP_8u_C1::copyTo(pData, nPitch)] of
    ImagesNPP.h, which is not among the sources.  Section 4.2: copyTo copies
    device rows into a host buffer using the host buffer's pitch; failure
    mode TransferError. *)
Definition ImageNPP_8u_C1_copyTo {S} (rImage : ImagePacked)
    (pData : list Npp8u) (nPitch : Z) : M S (list Npp8u) :=
  match copy_lines (Z.to_nat (height rImage))
                   (data rImage) 0 (pitch rImage)
                   pData 0 nPitch (width rImage * 1) with
  | Some pixels => ret pixels
  | None => throw (NppException "TransferError")
  end.

(** ImageIO.h, lines 189-197.  The state is the caller's device image and
    the disk. *)
Definition loadImage_NPP_8u_C1 (rFileName : string)
    : M (ImagePacked * World) unit :=
  do '(_, oImage) <-
    with_local ImageCPU_default
               (loadImage_8u_C1 FI host_malloc2D rFileName);
  do oResult <- ImageNPP_8u_C1_from_host oImage;
  (* rImage.swap(oResult) *)
  λ '(_, w), (Ok tt, (oResult, w)).

(** ImageIO.h, lines 199-207. *)
Definition saveImage_NPP_8u_C1 (rFileName : string) (rImage : ImagePacked)
    : M World unit :=
  do oHostImage <- ImageCPU_new host_malloc2D 1 (width rImage)
                                (height rImage);
  do pixels <- ImageNPP_8u_C1_copyTo rImage (data oHostImage)
                                     (pitch oHostImage);
  saveImage_8u_C1 FI rFileName (set_data pixels oHostImage).

End ImageIO_NPP.

(** ** Further promises of the codec *)

(** [FreeImage_Allocate] alone: a bitmap it hands out has the size and depth
    asked for and is well formed. *)
Definition Allocate_contract (FI : FreeImageLib) : Prop :=
  ∀ w h bpp b,
    Allocate FI w h bpp = Some b →
    fi_width b = w ∧ fi_height b = h ∧ fi_bpp b = bpp ∧ FIBITMAP_wf b.

(** A 32-bit bitmap written as PNG loads again as PNG, and the 32-bit
    conversion of what was loaded has the pixels that were written. *)
Definition PNG_contract (FI : FreeImageLib) : Prop :=
  ∀ b,
    FIBITMAP_wf b → fi_bpp b = 32 →
    ∃ f d b', Encode FI FIF_PNG b = Some f
              ∧ file_load f FIF_PNG = Loaded d
              ∧ ConvertTo32Bits FI d = Some b'
              ∧ FIBITMAP_wf b'
              ∧ fi_bpp b' = 32
              ∧ same_pixels 4 b b'.

(** The library with another way of guessing a format from a file name. *)
Definition with_filename_guess (guess : string → FREE_IMAGE_FORMAT)
    (FI : FreeImageLib) : FreeImageLib :=
  {| GetFIFFromFilename := guess;
     FIFSupportsReading := FIFSupportsReading FI;
     ConvertTo32Bits := ConvertTo32Bits FI;
     Allocate := Allocate FI;
     Encode := Encode FI;
     OpenFailure := OpenFailure FI;
     SaveFailure := SaveFailure FI |}.

(** ** More sample files *)

Module Faulty.

(** A file with a PNG signature that FreeImage cannot decode: loading it
    reports a message and returns null. *)
Definition broken : File :=
  {| file_type := FIF_PNG;
     file_load := λ _, LoadFailed (Some "corrupt chunk") |}.

(** A file that decodes as PNG to the 1 by 2 sample although its signature
    says BMP. *)
Definition bmp_signature : File :=
  {| file_type := FIF_BMP;
     file_load := file_load (Sample.stored FIF_PNG Sample.bgra1x2) |}.

(** A PGM file whose name ends in a PNG extension. *)
Definition disk : gmap string File :=
  <["broken.png" := broken]>
    (<["misnamed.png" := Sample.stored FIF_PGM Sample.gray2x2]> ∅).

Definition world : World :=
  {| files := disk; output_message := false; save_calls := [] |}.

(** A library that trusts extensions: every name is guessed to be PNG. *)
Definition lib_png_names : FreeImageLib :=
  with_filename_guess (λ _, FIF_PNG) Sample.lib.

(** A library whose allocator is out of memory. *)
Definition lib_no_memory : FreeImageLib :=
  {| GetFIFFromFilename := λ _, FIF_UNKNOWN;
     FIFSupportsReading := λ _, true;
     ConvertTo32Bits := Sample.convert;
     Allocate := λ _ _ _, None;
     Encode := Sample.encode;
     OpenFailure := λ _, None;
     SaveFailure := λ _ _, (None, None) |}.

(** A default-constructed host image: no pixels. *)
Definition empty_image : ImagePacked :=
  {| width := 0; height := 0; pitch := 0; data := [] |}.

End Faulty.

(** * Properties *)

(** ** Arithmetic and memory *)

Lemma wrap_uint_small z : 0 ≤ z < 2 ^ 32 → wrap_uint z = z.
Proof. intros. unfold wrap_uint. by apply Z.mod_small. Qed.

Lemma wrap_int_small z : - 2 ^ 31 ≤ z < 2 ^ 31 → wrap_int z = z.
Proof. intros. unfold wrap_int. rewrite Z.mod_small; lia. Qed.

Lemma memcpy_Some dst d src s n :
  0 ≤ n → 0 ≤ d → d + n ≤ Z.of_nat (length dst) →
  0 ≤ s → s + n ≤ Z.of_nat (length src) →
  is_Some (memcpy dst d src s n).
Proof. intros. unfold memcpy. rewrite decide_True by done. eauto. Qed.

Lemma memcpy_length dst d src s n dst' :
  memcpy dst d src s n = Some dst' → length dst' = length dst.
Proof.
  unfold memcpy. case_decide as Hb; [|done]. intros [= <-].
  rewrite !length_app, !length_take, !length_drop. lia.
Qed.

(** Byte [k] of the destination after [memcpy]: copied if it lies in the
    window, untouched otherwise. *)
Lemma memcpy_lookup dst d src s n dst' k :
  memcpy dst d src s n = Some dst' → 0 ≤ k →
  dst' !! Z.to_nat k =
    if decide (d ≤ k < d + n) then src !! Z.to_nat (s + (k - d))
    else dst !! Z.to_nat k.
Proof.
  unfold memcpy. case_decide as Hb; [|done]. intros [= <-] Hk.
  destruct Hb as (Hn & Hd & Hdn & Hs & Hsn).
  assert (length (take (Z.to_nat d) dst) = Z.to_nat d) as Hl1
    by (rewrite length_take; lia).
  assert (length (take (Z.to_nat n) (drop (Z.to_nat s) src)) = Z.to_nat n)
    as Hl2 by (rewrite length_take, length_drop; lia).
  case_decide as Hin.
  - rewrite lookup_app_r by lia. rewrite Hl1.
    rewrite lookup_app_l by lia.
    rewrite lookup_take_lt by lia. rewrite lookup_drop. f_equal. lia.
  - destruct (decide (k < d)).
    + rewrite lookup_app_l by lia. by rewrite lookup_take_lt by lia.
    + rewrite lookup_app_r by lia. rewrite Hl1.
      rewrite lookup_app_r by lia. rewrite Hl2.
      rewrite lookup_drop. f_equal. lia.
Qed.

(** Rows are equal when their bytes are. *)
Lemma row_ext d1 p1 i1 d2 p2 i2 len :
  0 ≤ i1 * p1 → 0 ≤ i2 * p2 →
  (∀ k, 0 ≤ k < len →
     d1 !! Z.to_nat (i1 * p1 + k) = d2 !! Z.to_nat (i2 * p2 + k)) →
  row d1 p1 len i1 = row d2 p2 len i2.
Proof.
  intros H1 H2 Hk. unfold row. apply list_eq. intros j.
  rewrite !lookup_take. case_decide as Hj; [|done].
  rewrite !lookup_drop.
  specialize (Hk (Z.of_nat j) ltac:(lia)).
  by replace (Z.to_nat (i1 * p1 + Z.of_nat j))
      with (Z.to_nat (i1 * p1) + j)%nat in Hk by lia;
    replace (Z.to_nat (i2 * p2 + Z.of_nat j))
      with (Z.to_nat (i2 * p2) + j)%nat in Hk by lia.
Qed.

(** The row loop, when every window it touches lies inside its block and
    the destination windows do not overlap: it runs to the end, each
    destination window receives its source window, and every other byte of
    the destination stays. *)
Lemma copy_lines_spec n : ∀ src pS sStep dst pD dStep len,
  0 ≤ len → (len ≤ dStep ∨ dStep ≤ - len) →
  (∀ j, 0 ≤ j < Z.of_nat n →
     0 ≤ pD + j * dStep ∧ pD + j * dStep + len ≤ Z.of_nat (length dst)
     ∧ 0 ≤ pS + j * sStep ∧ pS + j * sStep + len ≤ Z.of_nat (length src)) →
  ∃ dst',
    copy_lines n src pS sStep dst pD dStep len = Some dst'
    ∧ length dst' = length dst
    ∧ (∀ j k, 0 ≤ j < Z.of_nat n → 0 ≤ k < len →
         dst' !! Z.to_nat (pD + j * dStep + k)
         = src !! Z.to_nat (pS + j * sStep + k))
    ∧ (∀ i, 0 ≤ i →
         (∀ j, 0 ≤ j < Z.of_nat n →
            ¬ (pD + j * dStep ≤ i < pD + j * dStep + len)) →
         dst' !! Z.to_nat i = dst !! Z.to_nat i).
Proof.
  induction n as [|n IH]; intros src pS sStep dst pD dStep len Hlen Hstep Hin.
  - exists dst. simpl. split_and!; [done | done | intros; lia | done].
  - simpl.
    destruct (Hin 0 ltac:(lia)) as (Hd0 & Hd1 & Hs0 & Hs1).
    rewrite !Z.mul_0_l, !Z.add_0_r in *.
    destruct (memcpy_Some dst pD src pS len) as [dst1 Hcpy]; try done.
    rewrite Hcpy.
    pose proof (memcpy_length _ _ _ _ _ _ Hcpy) as Hlen1.
    destruct (IH src (pS + sStep) sStep dst1 (pD + dStep) dStep len)
      as (dst' & Hrun & Hlen' & Hrows & Hrest); try done.
    { intros j Hj. rewrite Hlen1.
      destruct (Hin (j + 1) ltac:(lia)) as (? & ? & ? & ?).
      repeat split; lia. }
    exists dst'. split; [done|]. split; [congruence|]. split.
    + intros j k Hj Hk. destruct (decide (j = 0)) as [->|Hj0].
      * rewrite !Z.mul_0_l, !Z.add_0_r.
        rewrite Hrest; first last.
        { intros j' Hj'. nia. }
        { lia. }
        rewrite (memcpy_lookup _ _ _ _ _ _ _ Hcpy) by lia.
        rewrite decide_True by lia. f_equal. lia.
      * specialize (Hrows (j - 1) k ltac:(lia) Hk).
        replace (pD + dStep + (j - 1) * dStep + k)
          with (pD + j * dStep + k) in Hrows by lia.
        replace (pS + sStep + (j - 1) * sStep + k)
          with (pS + j * sStep + k) in Hrows by lia.
        done.
    + intros i Hi Hout. rewrite Hrest; [|done|].
      * rewrite (memcpy_lookup _ _ _ _ _ _ _ Hcpy) by lia.
        rewrite decide_False; [done|].
        specialize (Hout 0 ltac:(lia)). lia.
      * intros j Hj. specialize (Hout (j + 1) ltac:(lia)). lia.
Qed.

(** The indexed loop of the four-channel loader is the pointer-stepping
    loop as long as its 32-bit products do not wrap. *)
Lemma copy_rows_flipped_lines n :
  ∀ srcIndex destIndex h_img srcPitch dst dstPitch len,
  (∀ j, 0 ≤ j < Z.of_nat n →
     0 ≤ (srcIndex + j) * dstPitch < 2 ^ 32
     ∧ 0 ≤ (destIndex - j) * srcPitch < 2 ^ 32) →
  copy_rows_flipped n srcIndex destIndex h_img srcPitch dst dstPitch len
  = copy_lines n h_img (destIndex * srcPitch) (- srcPitch)
               dst (srcIndex * dstPitch) dstPitch len.
Proof.
  induction n as [|n IH]; intros srcIndex destIndex h_img srcPitch dst
    dstPitch len Hrange; [done|].
  simpl. destruct (Hrange 0 ltac:(lia)) as [Hd Hs].
  rewrite Z.add_0_r in Hd. rewrite Z.sub_0_r in Hs.
  rewrite !wrap_uint_small by done.
  destruct (memcpy _ _ _ _ _) as [dst1|]; [|done].
  rewrite IH.
  - f_equal; lia.
  - intros j Hj. specialize (Hrange (j + 1) ltac:(lia)).
    replace (srcIndex + 1 + j) with (srcIndex + (j + 1)) by lia.
    replace (destIndex - 1 - j) with (destIndex - (j + 1)) by lia. done.
Qed.

(** ** Which steps can touch the caller's image *)

Lemma keeps_in_world {I A} (m : M World A) : keeps_image (I := I) (in_world m).
Proof.
  intros [im w] r s'. unfold in_world. destruct (m w) as [r' w'].
  by intros [= <- <-].
Qed.

Lemma keeps_ret {I A} (a : A) : keeps_image (I := I) (ret a).
Proof. intros s r s'. by intros [= <- <-]. Qed.

Lemma keeps_throw {I A} e : keeps_image (I := I) (A := A) (throw e).
Proof. intros s r s'. by intros [= <- <-]. Qed.

Lemma keeps_undef {I A} u : keeps_image (I := I) (A := A) (undef u).
Proof. intros s r s'. by intros [= <- <-]. Qed.

Lemma keeps_bind {I A B} (m : M (I * World) A) (k : A → M (I * World) B) :
  keeps_image m → (∀ a, keeps_image (k a)) → keeps_image (bind m k).
Proof.
  intros Hm Hk s r s'. unfold bind.
  destruct (m s) as [[a|e|u] s1] eqn:Hms; intros Hr.
  - rewrite (Hk a _ _ _ Hr). eapply Hm, Hms.
  - injection Hr as <- <-. eapply Hm, Hms.
  - injection Hr as <- <-. eapply Hm, Hms.
Qed.

Lemma keeps_NPP_ASSERT {I} C text : keeps_image (I := I) (NPP_ASSERT C text).
Proof. destruct C; [apply keeps_ret | apply keeps_throw]. Qed.

Lemma keeps_read_local {I A} var (x : Local A) :
  keeps_image (I := I) (read_local var x).
Proof. destruct x; [apply keeps_undef | apply keeps_ret]. Qed.

Lemma keeps_lift_copy {I} r : keeps_image (I := I) (lift_copy r).
Proof. destruct r; [apply keeps_ret | apply keeps_undef]. Qed.

Lemma keeps_ImageCPU_new {I} host_malloc2D channels nWidth nHeight :
  keeps_image (I := I) (ImageCPU_new host_malloc2D channels nWidth nHeight).
Proof.
  unfold ImageCPU_new. case_decide; [apply keeps_throw|].
  destruct (host_malloc2D _ _ _) as [[??]|];
    [apply keeps_ret | apply keeps_throw].
Qed.

Lemma keeps_on_weaken {I A} (P : Result A → Prop) (m : M (I * World) A) :
  keeps_image m → keeps_image_on P m.
Proof. intros Hm s r s' Hr _. eapply Hm, Hr. Qed.

Lemma keeps_on_never {I A} (P : Result A → Prop) (m : M (I * World) A) :
  (∀ s, ¬ P (m s).1) → keeps_image_on P m.
Proof. intros Hm s r s' Hr HP. destruct (Hm s). by rewrite Hr. Qed.

Lemma keeps_on_bind {I A B} (P : Result B → Prop)
    (m : M (I * World) A) (k : A → M (I * World) B) :
  keeps_image m → (∀ a, keeps_image_on P (k a)) →
  keeps_image_on P (bind m k).
Proof.
  intros Hm Hk s r s'. unfold bind.
  destruct (m s) as [[a|e|u] s1] eqn:Hms; intros Hr HP.
  - rewrite (Hk a _ _ _ Hr HP). eapply Hm, Hms.
  - injection Hr as <- <-. eapply Hm, Hms.
  - injection Hr as <- <-. eapply Hm, Hms.
Qed.

Create HintDb keeps.
#[local] Hint Resolve keeps_in_world keeps_ret keeps_throw keeps_undef
  keeps_NPP_ASSERT keeps_read_local keeps_lift_copy keeps_ImageCPU_new
  : keeps.

Ltac keeps_step :=
  first [ apply keeps_bind; [|intros]
        | solve [auto with keeps]
        | case_match ].

Lemma loadImage_8u_C1_keeps_on_failure FI host_malloc2D rFileName :
  keeps_image_on load_failed (loadImage_8u_C1 FI host_malloc2D rFileName).
Proof.
  unfold loadImage_8u_C1.
  repeat (apply keeps_on_bind; [solve [repeat keeps_step] | intros]).
  apply keeps_on_never. intros [im w] [e He]. done.
Qed.

Lemma loadImage_8u_C4_keeps_on_failure FI host_malloc2D fileName :
  keeps_image_on load_rejected (loadImage_8u_C4 FI host_malloc2D fileName).
Proof.
  unfold loadImage_8u_C4.
  apply keeps_on_bind; [solve [repeat keeps_step] | intros [d|]].
  - repeat (apply keeps_on_bind; [solve [repeat keeps_step] | intros]).
    apply keeps_on_never. intros [im w] [He | [e He]]; done.
  - apply keeps_on_weaken. auto with keeps.
Qed.

(** C4.  A load that fails leaves the caller's destination untouched: when
    the gray loader throws (unknown format, null bitmap, wrong color type or
    bit depth, allocation failure) [rImage] is what it was before the call,
    and when the four-channel loader returns false or throws,
    [*outCPUMemory] is what it was before the call. *)
Theorem load_failure_keeps_destination FI host_malloc2D name
    (dest : ImagePacked) (w : World) :
  (∀ e dest' w',
     loadImage_8u_C1 FI host_malloc2D name (dest, w) = (Throw e, (dest', w')) →
     dest' = dest)
  ∧ (∀ r dest' w',
       loadImage_8u_C4 FI host_malloc2D name (dest, w) = (r, (dest', w')) →
       load_rejected r → dest' = dest).
Proof.
  split.
  - intros e dest' w' Hrun.
    apply (loadImage_8u_C1_keeps_on_failure _ _ _ _ _ _ Hrun). by exists e.
  - intros r dest' w' Hrun Hr.
    apply (loadImage_8u_C4_keeps_on_failure _ _ _ _ _ _ Hrun Hr).
Qed.

Lemma load_failure_keeps_destination_witness :
  (loadImage_8u_C1 Sample.lib Sample.malloc2D "rgb.bmp"
     (Sample.blank, Sample.world)).2.1 = Sample.blank
  ∧ (loadImage_8u_C4 Sample.lib Sample.malloc2D "absent.png"
       (Sample.blank, Sample.world)).2.1 = Sample.blank.
Proof.
  destruct (load_failure_keeps_destination Sample.lib Sample.malloc2D
              "rgb.bmp" Sample.blank Sample.world) as [Hgray _].
  destruct (load_failure_keeps_destination Sample.lib Sample.malloc2D
              "absent.png" Sample.blank Sample.world) as [_ Hrgba].
  split.
  - destruct (loadImage_8u_C1 _ _ _ _) as [r [dest' w']] eqn:Hrun.
    assert (r = Throw (NppException
              "FreeImage_GetColorType(pBitmap) == FIC_MINISBLACK")) as ->
      by (by vm_compute in Hrun; injection Hrun as <- _ _).
    exact (Hgray _ _ _ eq_refl).
  - destruct (loadImage_8u_C4 _ _ _ _) as [r [dest' w']] eqn:Hrun.
    assert (r = Ok false) as ->
      by (by vm_compute in Hrun; injection Hrun as <- _ _).
    apply (Hrgba _ _ _ eq_refl). by left.
Defined.

(** ** The return value of the four-channel loader *)

(** Whatever the library, the path and the state, the four-channel loader
    does not return true. *)
Lemma loadImage_8u_C4_not_true FI host_malloc2D fileName s :
  (loadImage_8u_C4 FI host_malloc2D fileName s).1 ≠ Ok true.
Proof.
  destruct s as [out w].
  unfold loadImage_8u_C4, bind, in_world, FreeImage_Load, report, get, ret,
    bind,
    FreeImageErrorHandler, throw, ImageCPU_new, lift_copy, undef.
  repeat (case_match; simplify_eq/=); done.
Qed.

(** C5 (the code departs from it).  The loader returns false when FreeImage
    cannot load the file, but on a successful load control runs off the end
    of the body: here a readable four-channel PNG is decoded and stored in
    the caller's buffer, and the call ends without a return value instead of
    returning true.  No input at all makes it return true. *)
Theorem loadImage_8u_C4_success_returns_nothing :
  loadImage_8u_C4 Sample.lib Sample.malloc2D "absent.png"
    (Sample.blank, Sample.world) = (Ok false, (Sample.blank, Sample.world))
  ∧ loadImage_8u_C4 Sample.lib Sample.malloc2D "rgba.png"
      (Sample.blank, Sample.world)
    = (Undef MissingReturn,
       ({| width := 1; height := 2; pitch := 4;
           data := [Byte.x04; Byte.x05; Byte.x06; Byte.xff;
                    Byte.x01; Byte.x02; Byte.x03; Byte.xff] |},
        Sample.world))
  ∧ ∀ FI host_malloc2D fileName s,
      (loadImage_8u_C4 FI host_malloc2D fileName s).1 ≠ Ok true.
Proof.
  split_and!; [by vm_compute | by vm_compute |].
  apply loadImage_8u_C4_not_true.
Qed.

(** ** The bitmap pointer of the gray loader *)

(** When the format is recognised and its plugin cannot read, the branch
    that assigns [pBitmap] is skipped and the null check reads a variable
    that was never assigned. *)
Lemma loadImage_8u_C1_unreadable_format FI host_malloc2D rFileName dest w :
  detected_format FI rFileName w ≠ FIF_UNKNOWN →
  FIFSupportsReading FI (detected_format FI rFileName w) = false →
  loadImage_8u_C1 FI host_malloc2D rFileName (dest, w)
  = (Undef (UninitializedRead "pBitmap"), (dest, set_output_message true w)).
Proof.
  unfold detected_format. intros Hfmt Hread.
  unfold loadImage_8u_C1, bind, in_world; simpl.
  rewrite bool_decide_true by done. simpl. by rewrite Hread.
Qed.

(** C9 (the code departs from it).  [pBitmap] is declared without an
    initialiser and assigned only under [FreeImage_FIFSupportsReading]:
    for a file whose signature is recognised (PGM) by a library with no
    plugin able to read, the path to [NPP_ASSERT(pBitmap != 0)] assigns
    nothing and the check reads an indeterminate pointer. *)
Theorem loadImage_8u_C1_pBitmap_unassigned :
  detected_format Sample.lib_no_reader "gray.pgm" Sample.world = FIF_PGM
  ∧ FIFSupportsReading Sample.lib_no_reader FIF_PGM = false
  ∧ loadImage_8u_C1 Sample.lib_no_reader Sample.malloc2D "gray.pgm"
      (Sample.blank, Sample.world)
    = (Undef (UninitializedRead "pBitmap"),
       (Sample.blank, set_output_message true Sample.world)).
Proof.
  split_and!; [by vm_compute | done |].
  by apply loadImage_8u_C1_unreadable_format.
Qed.

(** ** The format the encoders write *)

Lemma FreeImage_Save_calls FI fif dib name w :
  save_calls (FreeImage_Save FI fif dib name w).2
  = save_calls w ++ [(fif, name)].
Proof.
  unfold FreeImage_Save, report, FreeImageErrorHandler, get, ret, throw,
    bind.
  repeat (case_match; simplify_eq/=); done.
Qed.

Lemma FreeImage_Save_true FI fif dib name w w' :
  FreeImage_Save FI fif dib name w = (Ok true, w') →
  ∃ f, Encode FI fif dib = Some f ∧ files w' !! name = Some f.
Proof.
  unfold FreeImage_Save. destruct (Encode FI fif dib) as [f|].
  - intros [= <-]. exists f. split; [done|]. simpl. apply lookup_insert_eq.
  - unfold report, FreeImageErrorHandler, get, ret, throw, bind.
    repeat (case_match; simplify_eq/=); done.
Qed.

(** What a run of [saveImage] with format [fif] does to the disk and to the
    list of save calls, for either pixel format ([depth] and [bytes] per
    pixel). *)
Lemma save_run_inv FI fif depth bytes rFileName (rImage : ImagePacked) w r w' :
  (do pResultBitmap <- NPP_ASSERT_NOT_NULL
      (Allocate FI (width rImage) (height rImage) depth) "pResultBitmap";
   do bits <- lift_copy
     (copy_lines (Z.to_nat (height rImage))
                 (data rImage) 0 (wrap_uint (pitch rImage))
                 (fi_bits pResultBitmap)
                 (wrap_uint (fi_pitch pResultBitmap * (height rImage - 1)))
                 (- fi_pitch pResultBitmap) (width rImage * bytes));
   do bSuccess <- FreeImage_Save FI fif (set_bits bits pResultBitmap)
                                 rFileName;
   NPP_ASSERT_MSG bSuccess "Failed to save result image.") w = (r, w') →
  (save_calls w' = save_calls w
   ∨ save_calls w' = save_calls w ++ [(fif, rFileName)])
  ∧ (r = Ok tt →
     ∃ b f, Encode FI fif b = Some f
            ∧ files w' !! rFileName = Some f
            ∧ save_calls w' = save_calls w ++ [(fif, rFileName)]).
Proof.
  unfold bind, NPP_ASSERT_NOT_NULL.
  destruct (Allocate FI _ _ _) as [b0|]; simpl;
    [|intros [= <- <-]; split; [by left | done]].
  destruct (copy_lines _ _ _ _ _ _ _ _) as [bits|]; simpl;
    [|intros [= <- <-]; split; [by left | done]].
  pose proof (FreeImage_Save_calls FI fif (set_bits bits b0) rFileName w)
    as Hcalls.
  destruct (FreeImage_Save FI fif (set_bits bits b0) rFileName w)
    as [[[]|e|u] w1] eqn:Hsave; simpl in *;
    intros [= <- <-]; (split; [by right|]); try done.
  intros _. destruct (FreeImage_Save_true _ _ _ _ _ _ Hsave) as (f & ? & ?).
  by exists (set_bits bits b0), f.
Qed.

(** C10.  The encoders never look at the path to pick a format: every
    [FreeImage_Save] call made by the gray [saveImage] names [FIF_PGM] and
    every one made by the four-channel [saveImage] names [FIF_PNG], and a
    save that succeeds leaves at the given path, whatever its extension, a
    file encoded as PGM, respectively PNG. *)
Theorem encoders_write_fixed_format FI rFileName (rImage : ImagePacked) w :
  (let w' := (saveImage_8u_C1 FI rFileName rImage w).2 in
   save_calls w' = save_calls w
   ∨ save_calls w' = save_calls w ++ [(FIF_PGM, rFileName)])
  ∧ (let w' := (saveImage_8u_C4 FI rFileName rImage w).2 in
     save_calls w' = save_calls w
     ∨ save_calls w' = save_calls w ++ [(FIF_PNG, rFileName)])
  ∧ (∀ w', saveImage_8u_C1 FI rFileName rImage w = (Ok tt, w') →
       ∃ b f, Encode FI FIF_PGM b = Some f
              ∧ files w' !! rFileName = Some f
              ∧ save_calls w' = save_calls w ++ [(FIF_PGM, rFileName)])
  ∧ (∀ w', saveImage_8u_C4 FI rFileName rImage w = (Ok tt, w') →
       ∃ b f, Encode FI FIF_PNG b = Some f
              ∧ files w' !! rFileName = Some f
              ∧ save_calls w' = save_calls w ++ [(FIF_PNG, rFileName)]).
Proof.
  split_and!.
  - destruct (saveImage_8u_C1 FI rFileName rImage w) as [r w'] eqn:Hrun.
    by destruct (save_run_inv _ _ _ _ _ _ _ _ _ Hrun).
  - destruct (saveImage_8u_C4 FI rFileName rImage w) as [r w'] eqn:Hrun.
    by destruct (save_run_inv _ _ _ _ _ _ _ _ _ Hrun).
  - intros w' Hrun.
    destruct (save_run_inv _ _ _ _ _ _ _ _ _ Hrun) as [_ Hok]. by apply Hok.
  - intros w' Hrun.
    destruct (save_run_inv _ _ _ _ _ _ _ _ _ Hrun) as [_ Hok]. by apply Hok.
Qed.

Lemma encoders_write_fixed_format_witness :
  (∃ b f, Sample.encode FIF_PGM b = Some f
          ∧ files (saveImage_8u_C1 Sample.lib "out.bmp" Sample.host2x2
                     Sample.world).2 !! "out.bmp" = Some f)
  ∧ (∃ b f, Sample.encode FIF_PNG b = Some f
            ∧ files (saveImage_8u_C4 Sample.lib "out.jpg" Sample.host1x1
                       Sample.world).2 !! "out.jpg" = Some f).
Proof.
  split.
  - destruct (encoders_write_fixed_format Sample.lib "out.bmp"
                Sample.host2x2 Sample.world) as (_ & _ & Hgray & _).
    destruct (saveImage_8u_C1 _ _ _ _) as [r w'] eqn:Hrun.
    assert (r = Ok tt) as ->
      by (by vm_compute in Hrun; injection Hrun as <- _).
    destruct (Hgray w' eq_refl) as (b & f & ? & ? & _). by exists b, f.
  - destruct (encoders_write_fixed_format Sample.lib "out.jpg"
                Sample.host1x1 Sample.world) as (_ & _ & _ & Hrgba).
    destruct (saveImage_8u_C4 _ _ _ _) as [r w'] eqn:Hrun.
    assert (r = Ok tt) as ->
      by (by vm_compute in Hrun; injection Hrun as <- _).
    destruct (Hrgba w' eq_refl) as (b & f & ? & ? & _). by exists b, f.
Defined.

(** ** The mip level constructor *)

(** The call the constructor makes once the device buffer exists. *)
Lemma MipMapChunk_new_allocated NPP srcImage width' height' streamCtx
    eInterpolation' calls nPitch block :
  0 < width' → 0 < height' →
  nppiMalloc_8u_C4 NPP width' height' = Some (nPitch, block) →
  let GPUMemory' :=
    {| width := width'; height := height'; pitch := nPitch;
       data := block |} in
  let c :=
    {| pSrc := data srcImage; nSrcStep := pitch srcImage;
       oSrcSize := {| size_width := width srcImage;
                      size_height := height srcImage |};
       oSrcRectROI := {| x := 0; y := 0; rect_width := width srcImage;
                         rect_height := height srcImage |};
       pDst := block; nDstStep := nPitch;
       oDstSize := {| size_width := width'; size_height := height' |};
       oDstRectROI := {| x := 0; y := 0; rect_width := width';
                         rect_height := height' |};
       eInterpolation := default NPPI_INTER_LINEAR eInterpolation';
       nppStreamCtx := streamCtx |} in
  MipMapChunk_new NPP srcImage width' height' streamCtx eInterpolation' calls
  = (if decide ((nppiResize_8u_C4R_Ctx NPP c).1 = NPP_SUCCESS)
     then Ok {| GPUMemory := set_data (nppiResize_8u_C4R_Ctx NPP c).2
                                      GPUMemory';
                Size := {| size_width := width'; size_height := height' |} |}
     else Throw (NppException "eStatusNPP == NPP_SUCCESS"),
     calls ++ [c]).
Proof.
  intros Hw Hh Halloc. simpl.
  unfold MipMapChunk_new, bind, ImageNPP_8u_C4_new, resize, NPP_CHECK_NPP,
    NPP_ASSERT. simpl.
  rewrite decide_False by lia. rewrite Halloc. simpl.
  destruct (nppiResize_8u_C4R_Ctx NPP _) as [st px]. simpl.
  by case_decide; [rewrite bool_decide_true | rewrite bool_decide_false].
Qed.

(** C6.  Asking for a level whose width or height is not positive, for
    instance (0, 256), never yields a chunk: the constructor throws, for any
    source image, stream context, interpolation mode and device, and it
    does so before the resize primitive is invoked. *)
Theorem MipMapChunk_rejects_empty_target NPP srcImage width' height'
    streamCtx eInterpolation' calls :
  width' ≤ 0 ∨ height' ≤ 0 →
  ∃ e, MipMapChunk_new NPP srcImage width' height' streamCtx eInterpolation'
         calls = (Throw e, calls).
Proof.
  intros Hsize. exists (NppException "AllocationError").
  unfold MipMapChunk_new, bind, ImageNPP_8u_C4_new. simpl.
  by rewrite decide_True.
Qed.

Lemma MipMapChunk_rejects_empty_target_witness :
  ∃ e, MipMapChunk_new Sample.npp Sample.device4x4 0 256 7 None []
       = (Throw e, []).
Proof.
  apply (MipMapChunk_rejects_empty_target Sample.npp Sample.device4x4 0 256
           7 None []).
  left. lia.
Defined.

(** C7.  Whenever the constructor reaches the resize primitive it makes one
    call, whose source size and source region are the full extent of the
    source image, whose destination size and region are the full extent of
    the requested size, and whose interpolation mode is the one supplied, or
    [NPPI_INTER_LINEAR] when none is supplied.  The same call is made when
    the requested size is the size of the source: no case is singled out. *)
Theorem MipMapChunk_resize_arguments NPP srcImage width' height' streamCtx
    eInterpolation' calls nPitch block :
  0 < width' → 0 < height' →
  nppiMalloc_8u_C4 NPP width' height' = Some (nPitch, block) →
  ∃ c, (MipMapChunk_new NPP srcImage width' height' streamCtx eInterpolation'
          calls).2 = calls ++ [c]
       ∧ pSrc c = data srcImage ∧ nSrcStep c = pitch srcImage
       ∧ oSrcSize c = {| size_width := width srcImage;
                         size_height := height srcImage |}
       ∧ oSrcRectROI c = {| x := 0; y := 0; rect_width := width srcImage;
                            rect_height := height srcImage |}
       ∧ oDstSize c = {| size_width := width'; size_height := height' |}
       ∧ oDstRectROI c = {| x := 0; y := 0; rect_width := width';
                            rect_height := height' |}
       ∧ nppStreamCtx c = streamCtx
       ∧ (eInterpolation' = None → eInterpolation c = NPPI_INTER_LINEAR)
       ∧ (∀ m, eInterpolation' = Some m → eInterpolation c = m)
       ∧ (width' = width srcImage → height' = height srcImage →
          oDstRectROI c = oSrcRectROI c ∧ oDstSize c = oSrcSize c).
Proof.
  intros Hw Hh Halloc.
  rewrite (MipMapChunk_new_allocated _ _ _ _ _ _ _ _ _ Hw Hh Halloc).
  eexists. split; [done|]. simpl.
  split_and!; try done.
  - by intros ->.
  - by intros m ->.
  - by intros -> ->.
Qed.

Lemma MipMapChunk_resize_arguments_witness :
  ∃ c, (MipMapChunk_new Sample.npp Sample.device4x4 4 4 7 None []).2 = [c]
       ∧ oSrcRectROI c = {| x := 0; y := 0; rect_width := 4;
                            rect_height := 4 |}
       ∧ oDstRectROI c = {| x := 0; y := 0; rect_width := 4;
                            rect_height := 4 |}
       ∧ eInterpolation c = NPPI_INTER_LINEAR.
Proof.
  destruct (MipMapChunk_resize_arguments Sample.npp Sample.device4x4 4 4 7
              None [] 16 (replicate 64 Byte.x00))
    as (c & Hc & _ & _ & _ & Hsrc & _ & Hdst & _ & Hdef & _);
    [lia | lia | by vm_compute |].
  exists c. split_and!; [done | done | done | by apply Hdef].
Defined.

Lemma MipMapChunk_new_not_allocated NPP srcImage width' height' streamCtx
    eInterpolation' calls :
  width' ≤ 0 ∨ height' ≤ 0 ∨ nppiMalloc_8u_C4 NPP width' height' = None →
  MipMapChunk_new NPP srcImage width' height' streamCtx eInterpolation' calls
  = (Throw (NppException "AllocationError"), calls).
Proof.
  intros Hno. unfold MipMapChunk_new, bind, ImageNPP_8u_C4_new. simpl.
  case_decide; [done|].
  destruct Hno as [?|[?|Hno]]; [lia | lia | by rewrite Hno].
Qed.

(** C8.  When the resize primitive reports anything but success the
    constructor throws at once and no chunk is returned.  A construction
    invokes the primitive at most once, so a reported failure is followed
    by no second attempt and no other call. *)
Theorem MipMapChunk_propagates_resize_failure NPP srcImage width' height'
    streamCtx eInterpolation' calls r calls' :
  MipMapChunk_new NPP srcImage width' height' streamCtx eInterpolation' calls
  = (r, calls') →
  (calls' = calls ∨ ∃ c, calls' = calls ++ [c])
  ∧ (∀ c, calls' = calls ++ [c] →
       (nppiResize_8u_C4R_Ctx NPP c).1 ≠ NPP_SUCCESS →
       ∃ e, r = Throw e).
Proof.
  destruct (decide (width' ≤ 0 ∨ height' ≤ 0)) as [Hsize|Hsize].
  { rewrite MipMapChunk_new_not_allocated by tauto. intros [= <- <-].
    split; [by left|]. intros c Hc _.
    apply (f_equal length) in Hc. rewrite length_app in Hc. simpl in Hc.
    lia. }
  destruct (nppiMalloc_8u_C4 NPP width' height') as [[nPitch block]|]
    eqn:Halloc.
  - assert (0 < width') as Hw by lia. assert (0 < height') as Hh by lia.
    rewrite (MipMapChunk_new_allocated _ _ _ _ _ _ _ _ _ Hw Hh Halloc).
    intros [= <- <-]. split; [right; eauto|].
    intros c Hc Hstatus. apply app_inv_head in Hc. injection Hc as <-.
    rewrite decide_False by done. eauto.
  - rewrite MipMapChunk_new_not_allocated by tauto. intros [= <- <-].
    split; [by left|]. intros c Hc _.
    apply (f_equal length) in Hc. rewrite length_app in Hc. simpl in Hc.
    lia.
Qed.

Lemma MipMapChunk_propagates_resize_failure_witness :
  ∃ e, (MipMapChunk_new Sample.npp_failing Sample.device4x4 2 2 7 None []).1
       = Throw e.
Proof.
  destruct (MipMapChunk_new Sample.npp_failing Sample.device4x4 2 2 7 None [])
    as [r calls'] eqn:Hrun.
  destruct (MipMapChunk_propagates_resize_failure _ _ _ _ _ _ _ _ _ Hrun)
    as [_ Hthrow].
  vm_compute in Hrun. injection Hrun as _ Hcalls.
  apply (Hthrow _ (eq_sym Hcalls)). by vm_compute.
Defined.

(** ** The vertical flip *)

(** The loop of the loaders: the source pointer starts at the last stored
    line and walks down, the destination pointer starts at row 0 and walks
    up.  Row [i] of the result is stored line [h - 1 - i]. *)
Lemma copy_lines_flip_down h src spitch dst dpitch len :
  0 < h → 0 ≤ len → len ≤ dpitch → len ≤ spitch →
  Z.of_nat (length src) = spitch * h →
  Z.of_nat (length dst) = dpitch * h →
  ∃ dst',
    copy_lines (Z.to_nat h) src (spitch * (h - 1)) (- spitch)
               dst 0 dpitch len = Some dst'
    ∧ length dst' = length dst
    ∧ ∀ i, 0 ≤ i < h →
        row dst' dpitch len i = row src spitch len (h - 1 - i).
Proof.
  intros Hh Hlen Hd Hs Hsrc Hdst.
  destruct (copy_lines_spec (Z.to_nat h) src (spitch * (h - 1)) (- spitch)
              dst 0 dpitch len) as (dst' & Hrun & Hlen' & Hrows & _).
  - done.
  - by left.
  - intros j Hj. rewrite Hsrc, Hdst. nia.
  - exists dst'. split_and!; [done..|].
    intros i Hi. apply row_ext; [nia | nia |].
    intros k Hk. specialize (Hrows i k ltac:(lia) Hk).
    replace (0 + i * dpitch + k) with (i * dpitch + k) in Hrows by lia.
    replace (spitch * (h - 1) + i * - spitch + k)
      with ((h - 1 - i) * spitch + k) in Hrows by lia.
    done.
Qed.

(** The loop of the encoders: the source pointer starts at row 0 and walks
    up, the destination pointer starts at the last stored line and walks
    down.  Stored line [h - 1 - i] of the result is row [i]. *)
Lemma copy_lines_flip_up h src spitch dst dpitch len :
  0 < h → 0 ≤ len → len ≤ dpitch → len ≤ spitch →
  Z.of_nat (length src) = spitch * h →
  Z.of_nat (length dst) = dpitch * h →
  ∃ dst',
    copy_lines (Z.to_nat h) src 0 spitch
               dst (dpitch * (h - 1)) (- dpitch) len = Some dst'
    ∧ length dst' = length dst
    ∧ ∀ i, 0 ≤ i < h →
        row dst' dpitch len (h - 1 - i) = row src spitch len i.
Proof.
  intros Hh Hlen Hd Hs Hsrc Hdst.
  destruct (copy_lines_spec (Z.to_nat h) src 0 spitch
              dst (dpitch * (h - 1)) (- dpitch) len)
    as (dst' & Hrun & Hlen' & Hrows & _).
  - done.
  - right. lia.
  - intros j Hj. rewrite Hsrc, Hdst. nia.
  - exists dst'. split_and!; [done..|].
    intros i Hi. apply row_ext; [nia | nia |].
    intros k Hk. specialize (Hrows i k ltac:(lia) Hk).
    replace (dpitch * (h - 1) + i * - dpitch + k)
      with ((h - 1 - i) * dpitch + k) in Hrows by lia.
    replace (0 + i * spitch + k) with (i * spitch + k) in Hrows by lia.
    done.
Qed.

(** What a completed run of the gray loader went through. *)
Lemma loadImage_8u_C1_inv FI host_malloc2D rFileName dest w loaded w' :
  loadImage_8u_C1 FI host_malloc2D rFileName (dest, w)
  = (Ok tt, (loaded, w')) →
  ∃ f b nPitch block pixels,
    files w !! rFileName = Some f
    ∧ detected_format FI rFileName w ≠ FIF_UNKNOWN
    ∧ FIFSupportsReading FI (detected_format FI rFileName w) = true
    ∧ file_load f (detected_format FI rFileName w) = Loaded b
    ∧ fi_color_type b = FIC_MINISBLACK ∧ fi_bpp b = 8
    ∧ 0 < fi_width b ∧ 0 < fi_height b
    ∧ host_malloc2D (fi_width b) (fi_height b) 1 = Some (nPitch, block)
    ∧ copy_lines (Z.to_nat (fi_height b)) (fi_bits b)
        (wrap_uint (fi_pitch b * wrap_uint (fi_height b - 1))) (- fi_pitch b)
        block 0 (wrap_uint nPitch) (fi_width b * 1) = Some pixels
    ∧ loaded = {| width := fi_width b; height := fi_height b;
                  pitch := nPitch; data := pixels |}
    ∧ w' = set_output_message true w.
Proof.
  unfold loadImage_8u_C1, bind, in_world, detected_format. simpl.
  set (fmt := if decide (from_option file_type FIF_UNKNOWN
                           (files w !! rFileName) = FIF_UNKNOWN)
              then GetFIFFromFilename FI rFileName
              else from_option file_type FIF_UNKNOWN (files w !! rFileName)).
  destruct (decide (fmt = FIF_UNKNOWN)) as [Hfmt|Hfmt];
    [by rewrite bool_decide_false by tauto|].
  rewrite bool_decide_true by done. simpl.
  destruct (FIFSupportsReading FI fmt) eqn:Hread; [|done]. simpl.
  unfold FreeImage_Load, report, bind, get. simpl.
  destruct (files w !! rFileName) as [f|] eqn:Hfile;
    [|by destruct (OpenFailure FI rFileName)].
  destruct (file_load f fmt) as [b|[msg|]] eqn:Hload; [|done..]. simpl.
  destruct (decide (fi_color_type b = FIC_MINISBLACK)) as [Hcolor|Hcolor];
    [|by rewrite bool_decide_false].
  rewrite bool_decide_true by done. simpl.
  destruct (decide (fi_bpp b = 8)) as [Hbpp|Hbpp];
    [|by rewrite bool_decide_false].
  rewrite bool_decide_true by done. simpl.
  unfold ImageCPU_new. case_decide as Hsize; [done|].
  destruct (host_malloc2D _ _ _) as [[nPitch block]|] eqn:Halloc; [|done].
  simpl.
  destruct (copy_lines _ _ _ _ _ _ _ _) as [pixels|] eqn:Hcopy; [|done].
  simpl. intros [= <- <-].
  exists f, b, nPitch, block, pixels. split_and!; try done; lia.
Qed.

Lemma loadImage_8u_C1_run FI host_malloc2D rFileName dest w f b nPitch block
    pixels :
  files w !! rFileName = Some f →
  detected_format FI rFileName w ≠ FIF_UNKNOWN →
  FIFSupportsReading FI (detected_format FI rFileName w) = true →
  file_load f (detected_format FI rFileName w) = Loaded b →
  fi_color_type b = FIC_MINISBLACK → fi_bpp b = 8 →
  0 < fi_width b → 0 < fi_height b →
  host_malloc2D (fi_width b) (fi_height b) 1 = Some (nPitch, block) →
  copy_lines (Z.to_nat (fi_height b)) (fi_bits b)
    (wrap_uint (fi_pitch b * wrap_uint (fi_height b - 1))) (- fi_pitch b)
    block 0 (wrap_uint nPitch) (fi_width b * 1) = Some pixels →
  loadImage_8u_C1 FI host_malloc2D rFileName (dest, w)
  = (Ok tt, ({| width := fi_width b; height := fi_height b;
                pitch := nPitch; data := pixels |},
             set_output_message true w)).
Proof.
  unfold detected_format.
  intros Hfile Hfmt Hread Hload Hcolor Hbpp Hw Hh Halloc Hcopy.
  unfold loadImage_8u_C1, bind, in_world. simpl.
  rewrite bool_decide_true by done. simpl. rewrite Hread. simpl.
  unfold FreeImage_Load, report, bind, get. simpl.
  rewrite Hfile in Hload |- *. simpl in *. rewrite Hload. simpl.
  rewrite !bool_decide_true by done. simpl.
  unfold ImageCPU_new. rewrite decide_False by lia. rewrite Halloc. simpl.
  by rewrite Hcopy.
Qed.

(** What a run of the four-channel loader that got to the end of its body
    went through. *)
Lemma loadImage_8u_C4_inv FI host_malloc2D fileName dest w loaded w' :
  loadImage_8u_C4 FI host_malloc2D fileName (dest, w)
  = (Undef MissingReturn, (loaded, w')) →
  ∃ f d b nPitch block pixels,
    files w !! fileName = Some f
    ∧ file_load f FIF_PNG = Loaded d
    ∧ ConvertTo32Bits FI d = Some b
    ∧ 0 < wrap_int (fi_width b) ∧ 0 < wrap_int (fi_height b)
    ∧ wrap_int (fi_width b) * 4 ≤ INT_MAX
    ∧ host_malloc2D (wrap_int (fi_width b)) (wrap_int (fi_height b)) 4
      = Some (nPitch, block)
    ∧ copy_rows_flipped (Z.to_nat (wrap_int (fi_height b))) 0
        (wrap_int (fi_height b) - 1) (fi_bits b) (fi_pitch b)
        block nPitch (wrap_int (fi_width b) * 4) = Some pixels
    ∧ loaded = {| width := wrap_int (fi_width b);
                  height := wrap_int (fi_height b);
                  pitch := nPitch; data := pixels |}
    ∧ w' = w.
Proof.
  unfold loadImage_8u_C4, in_world, FreeImage_Load, report, get, bind. simpl.
  destruct (files w !! fileName) as [f|] eqn:Hfile;
    [|by destruct (OpenFailure FI fileName), (output_message w)].
  destruct (file_load f FIF_PNG) as [d|[msg|]] eqn:Hload; simpl;
    [|by destruct (output_message w)|done].
  unfold ImageCPU_new. case_decide as Hsize; [done|].
  destruct (host_malloc2D _ _ _) as [[nPitch block]|] eqn:Halloc; [|done].
  simpl. case_decide as Hlen; [|done]. simpl.
  destruct (copy_rows_flipped _ _ _ _ _ _ _ _) as [pixels|] eqn:Hcopy;
    [|done].
  simpl. intros [= <- <-].
  destruct (ConvertTo32Bits FI d) as [b|] eqn:Hconv.
  - exists f, d, b, nPitch, block, pixels. simpl in *.
    split_and!; try done; lia.
  - simpl in Hsize. change (wrap_int 0) with 0 in Hsize. lia.
Qed.

Lemma loadImage_8u_C4_run FI host_malloc2D fileName dest w f d b nPitch block
    pixels :
  files w !! fileName = Some f →
  file_load f FIF_PNG = Loaded d →
  ConvertTo32Bits FI d = Some b →
  0 < wrap_int (fi_width b) → 0 < wrap_int (fi_height b) →
  wrap_int (fi_width b) * 4 ≤ INT_MAX →
  host_malloc2D (wrap_int (fi_width b)) (wrap_int (fi_height b)) 4
  = Some (nPitch, block) →
  copy_rows_flipped (Z.to_nat (wrap_int (fi_height b))) 0
    (wrap_int (fi_height b) - 1) (fi_bits b) (fi_pitch b)
    block nPitch (wrap_int (fi_width b) * 4) = Some pixels →
  loadImage_8u_C4 FI host_malloc2D fileName (dest, w)
  = (Undef MissingReturn,
     ({| width := wrap_int (fi_width b); height := wrap_int (fi_height b);
         pitch := nPitch; data := pixels |}, w)).
Proof.
  intros Hfile Hload Hconv Hw Hh Hlen Halloc Hcopy.
  unfold loadImage_8u_C4, in_world, FreeImage_Load, report, get, bind. simpl.
  rewrite Hfile, Hload. simpl. rewrite Hconv. simpl.
  unfold ImageCPU_new. rewrite decide_False by lia. rewrite Halloc. simpl.
  rewrite decide_True by (unfold INT_MIN; lia). simpl.
  by rewrite Hcopy.
Qed.

(** The rows the gray loader's loop leaves in the host block. *)
Lemma loadImage_8u_C1_rows b nPitch block pixels :
  FIBITMAP_wf b → fi_bpp b = 8 → 0 < fi_width b → 0 < fi_height b →
  fi_width b * 1 ≤ nPitch →
  Z.of_nat (length block) = nPitch * fi_height b →
  nPitch * fi_height b < 2 ^ 31 →
  copy_lines (Z.to_nat (fi_height b)) (fi_bits b)
    (wrap_uint (fi_pitch b * wrap_uint (fi_height b - 1))) (- fi_pitch b)
    block 0 (wrap_uint nPitch) (fi_width b * 1) = Some pixels →
  ∀ i, 0 ≤ i < fi_height b →
    row pixels nPitch (fi_width b) i
    = row (fi_bits b) (fi_pitch b) (fi_width b) (fi_height b - 1 - i).
Proof.
  intros [_ _ _ Hpitch Hbits Hrange] Hbpp Hw Hh Hrow Hblock Hsmall.
  rewrite Hbpp in Hpitch.
  rewrite (wrap_uint_small (fi_height b - 1)) by nia.
  rewrite (wrap_uint_small (fi_pitch b * _)) by nia.
  rewrite (wrap_uint_small nPitch) by nia.
  rewrite Z.mul_1_r in *.
  destruct (copy_lines_flip_down (fi_height b) (fi_bits b) (fi_pitch b)
              block nPitch (fi_width b)) as (dst' & Hrun & _ & Hrows);
    [lia..|].
  rewrite Hrun. by intros [= <-].
Qed.

(** The rows the four-channel loader's loop leaves in the host block. *)
Lemma loadImage_8u_C4_rows b nPitch block pixels :
  FIBITMAP_wf b → fi_bpp b = 32 → 0 < fi_width b → 0 < fi_height b →
  fi_width b * 4 ≤ nPitch →
  Z.of_nat (length block) = nPitch * fi_height b →
  nPitch * fi_height b < 2 ^ 31 →
  copy_rows_flipped (Z.to_nat (fi_height b)) 0 (fi_height b - 1)
    (fi_bits b) (fi_pitch b) block nPitch (fi_width b * 4) = Some pixels →
  ∀ i, 0 ≤ i < fi_height b →
    row pixels nPitch (fi_width b * 4) i
    = row (fi_bits b) (fi_pitch b) (fi_width b * 4) (fi_height b - 1 - i).
Proof.
  intros [_ _ _ Hpitch Hbits Hrange] Hbpp Hw Hh Hrow Hblock Hsmall.
  rewrite Hbpp in Hpitch.
  rewrite copy_rows_flipped_lines by (intros j Hj; nia).
  replace ((fi_height b - 1) * fi_pitch b)
    with (fi_pitch b * (fi_height b - 1)) by lia.
  rewrite Z.mul_0_l.
  destruct (copy_lines_flip_down (fi_height b) (fi_bits b) (fi_pitch b)
              block nPitch (fi_width b * 4)) as (dst' & Hrun & _ & Hrows);
    [lia..|].
  rewrite Hrun. by intros [= <-].
Qed.

(** The sizes of a well-formed bitmap fit an [int]. *)
Lemma FIBITMAP_wf_int b :
  FIBITMAP_wf b → 8 ≤ fi_bpp b → 0 < wrap_int (fi_width b) →
  0 < wrap_int (fi_height b) →
  wrap_int (fi_width b) = fi_width b ∧ wrap_int (fi_height b) = fi_height b.
Proof.
  intros [Hw Hh _ Hpitch _ Hrange] Hbpp Hw' Hh'.
  assert (fi_width b ≠ 0) by (by intros Hz; rewrite Hz in Hw').
  assert (fi_height b ≠ 0) by (by intros Hz; rewrite Hz in Hh').
  assert (fi_width b ≤ fi_pitch b) by nia.
  assert (fi_height b < 2 ^ 31) by nia.
  assert (fi_pitch b < 2 ^ 31) by nia.
  split; apply wrap_int_small; lia.
Qed.


Lemma Sample_malloc2D_wf : host_malloc_wf Sample.malloc2D.
Proof.
  intros nWidth nHeight channels nPitch block. unfold Sample.malloc2D.
  case_decide as Hok; [|done]. intros [= <- <-].
  rewrite length_replicate. nia.
Qed.

Lemma Sample_gray2x2_wf : FIBITMAP_wf Sample.gray2x2.
Proof. by split. Qed.

Lemma Sample_bgra1x2_wf : FIBITMAP_wf Sample.bgra1x2.
Proof. by split. Qed.

Lemma Sample_decodes_gray_pgm :
  decodes_wf Sample.lib Sample.world "gray.pgm".
Proof.
  intros f fif d Hfile Hload.
  unfold Sample.world, Sample.disk in Hfile. simplify_map_eq.
  case_decide; [|done]. simplify_eq.
  split; [apply Sample_gray2x2_wf|].
  intros b Hconv. vm_compute in Hconv. injection Hconv as <-. by split.
Qed.

Lemma Sample_decodes_rgba_png :
  decodes_wf Sample.lib Sample.world "rgba.png".
Proof.
  intros f fif d Hfile Hload.
  unfold Sample.world, Sample.disk in Hfile. simplify_map_eq.
  case_decide; [|done]. simplify_eq.
  split; [apply Sample_bgra1x2_wf|].
  intros b Hconv. vm_compute in Hconv. injection Hconv as <-. by split.
Qed.


(** ** Saving and loading a gray image *)

(** The gray loader's loop runs to the end on a well-formed 8-bit bitmap
    and a host block of the right size. *)
Lemma loadImage_8u_C1_loop b nPitch block :
  FIBITMAP_wf b → fi_bpp b = 8 → 0 < fi_width b → 0 < fi_height b →
  fi_width b * 1 ≤ nPitch →
  Z.of_nat (length block) = nPitch * fi_height b →
  nPitch * fi_height b < 2 ^ 31 →
  ∃ pixels,
    copy_lines (Z.to_nat (fi_height b)) (fi_bits b)
      (wrap_uint (fi_pitch b * wrap_uint (fi_height b - 1))) (- fi_pitch b)
      block 0 (wrap_uint nPitch) (fi_width b * 1) = Some pixels.
Proof.
  intros [_ _ _ Hpitch Hbits Hrange] Hbpp Hw Hh Hrow Hblock Hsmall.
  rewrite Hbpp in Hpitch.
  rewrite (wrap_uint_small (fi_height b - 1)) by nia.
  rewrite (wrap_uint_small (fi_pitch b * _)) by nia.
  rewrite (wrap_uint_small nPitch) by nia.
  rewrite Z.mul_1_r in *.
  destruct (copy_lines_flip_down (fi_height b) (fi_bits b) (fi_pitch b)
              block nPitch (fi_width b)) as (dst' & Hrun & _); [lia..|].
  by exists dst'.
Qed.

(** The gray encoder's loop on a valid image and a freshly allocated 8-bit
    bitmap of the same size: it runs to the end and stored line
    [height - 1 - i] of the bitmap receives row [i] of the image. *)
Lemma saveImage_8u_C1_loop (rImage : ImageCPU_8u_C1) b0 :
  image_valid 1 rImage → FIBITMAP_wf b0 →
  fi_width b0 = width rImage → fi_height b0 = height rImage → fi_bpp b0 = 8 →
  ∃ bits,
    copy_lines (Z.to_nat (height rImage)) (data rImage) 0
      (wrap_uint (pitch rImage)) (fi_bits b0)
      (wrap_uint (fi_pitch b0 * (height rImage - 1))) (- fi_pitch b0)
      (width rImage * 1) = Some bits
    ∧ length bits = length (fi_bits b0)
    ∧ ∀ i, 0 ≤ i < height rImage →
        row bits (fi_pitch b0) (width rImage) (height rImage - 1 - i)
        = row (data rImage) (pitch rImage) (width rImage) i.
Proof.
  intros [Hw Hh Hp Hdata Hrange] [_ _ _ Hpitch Hbits Hrange0] Hw0 Hh0 Hbpp.
  rewrite Hw0, Hbpp in Hpitch. rewrite Hh0 in Hbits, Hrange0.
  rewrite (wrap_uint_small (pitch rImage)) by nia.
  rewrite (wrap_uint_small (fi_pitch b0 * _)) by nia.
  rewrite Z.mul_1_r in *.
  destruct (copy_lines_flip_up (height rImage) (data rImage) (pitch rImage)
              (fi_bits b0) (fi_pitch b0) (width rImage))
    as (bits & Hrun & Hlen & Hrows); [lia..|].
  by exists bits.
Qed.

(** C3.  Saving a valid gray host image and loading the written file back
    gives an image of the same size whose rows hold the same pixels: the
    first [width] bytes of every row agree, whatever the two strides and
    the padding.  The codec is assumed to keep its contract (a PGM file
    reads back with the pixels that were written) and the two allocations
    to succeed. *)
Theorem save_load_roundtrip FI host_malloc2D rFileName
    (rImage dest : ImageCPU_8u_C1) w :
  FreeImage_contract FI → host_malloc_wf host_malloc2D →
  image_valid 1 rImage →
  is_Some (Allocate FI (width rImage) (height rImage) 8) →
  is_Some (host_malloc2D (width rImage) (height rImage) 1) →
  ∃ w1 loaded w2,
    saveImage_8u_C1 FI rFileName rImage w = (Ok tt, w1)
    ∧ loadImage_8u_C1 FI host_malloc2D rFileName (dest, w1)
      = (Ok tt, (loaded, w2))
    ∧ width loaded = width rImage ∧ height loaded = height rImage
    ∧ ∀ i, 0 ≤ i < height rImage →
        row (data loaded) (pitch loaded) (width rImage) i
        = row (data rImage) (pitch rImage) (width rImage) i.
Proof.
  intros [Halloc_spec Hreading Hlossless] Hmalloc Hvalid [b0 Hb0]
    [[nPitch block] Hblock].
  destruct (Halloc_spec _ _ _ _ Hb0) as (Hw0 & Hh0 & Hbpp0 & Hwf0).
  destruct (saveImage_8u_C1_loop rImage b0) as (bits & Hcopy & Hlen & Hsaved);
    [done..|].
  (* the bitmap handed to FreeImage_Save and what reads back from it *)
  assert (FIBITMAP_wf (set_bits bits b0)) as Hwf1.
  { destruct Hwf0. split; simpl; [done..| |done]. by rewrite Hlen. }
  destruct (Hlossless (set_bits bits b0) Hwf1 Hbpp0)
    as (f & b' & Hencode & Htype & Hload & Hwf' & Hcolor & Hbpp'
        & Hw' & Hh' & Hpixels).
  simpl in Hw', Hh', Hpixels. rewrite Hw0 in Hw'. rewrite Hh0 in Hh'.
  rewrite Hw0, Hh0 in Hpixels.
  set (w1 := set_files (<[rFileName := f]> (files w))
                       (log_save FIF_PGM rFileName w)).
  assert (saveImage_8u_C1 FI rFileName rImage w = (Ok tt, w1)) as Hsave.
  { unfold saveImage_8u_C1, bind, NPP_ASSERT_NOT_NULL. rewrite Hb0. simpl.
    rewrite Hcopy. simpl. unfold FreeImage_Save. by rewrite Hencode. }
  (* loading the written file *)
  assert (files w1 !! rFileName = Some f) as Hfile
    by apply lookup_insert_eq.
  assert (detected_format FI rFileName w1 = FIF_PGM) as Hfmt.
  { unfold detected_format. rewrite Hfile. simpl. rewrite Htype.
    by rewrite decide_False. }
  destruct Hvalid as [Hw Hh Hp Hdata Hrange].
  destruct (Hmalloc _ _ _ _ _ Hblock) as (Hrow & Hsize & Hsmall).
  destruct (loadImage_8u_C1_loop b' nPitch block) as [pixels Hloop];
    [done | done | lia | lia | by rewrite Hw' | by rewrite Hh'
    | by rewrite Hh' |].
  exists w1, {| width := fi_width b'; height := fi_height b';
               pitch := nPitch; data := pixels |},
    (set_output_message true w1).
  split_and!; [done | | done | done |].
  - apply (loadImage_8u_C1_run _ _ _ _ _ f b' nPitch block pixels);
      rewrite ?Hfmt; try done; try lia.
    by rewrite Hw', Hh'.
  - intros i Hi. simpl.
    pose proof (loadImage_8u_C1_rows b' nPitch block pixels Hwf' Hbpp'
                  ltac:(lia) ltac:(lia) ltac:(by rewrite Hw')
                  ltac:(by rewrite Hh') ltac:(by rewrite Hh') Hloop i
                  ltac:(lia)) as Hloaded.
    rewrite Hw', Hh' in Hloaded. rewrite Hloaded.
    specialize (Hpixels (height rImage - 1 - i) ltac:(lia)).
    rewrite Z.mul_1_r in Hpixels. rewrite Hpixels. simpl.
    specialize (Hsaved i Hi). done.
Qed.

Lemma Sample_lib_contract : FreeImage_contract Sample.lib.
Proof.
  split.
  - intros w h bpp b. simpl. unfold Sample.allocate.
    case_decide as Hok; [|done]. intros [= <-]. simpl.
    split_and!; [done..|].
    assert (0 < w * bpp) as Hline by nia.
    pose proof (Z.div_mod (w * bpp + 31) 32 ltac:(lia)) as Hdiv.
    pose proof (Z.mod_pos_bound (w * bpp + 31) 32 ltac:(lia)) as Hmod.
    revert Hok Hdiv Hmod.
    generalize ((w * bpp + 31) `div` 32) ((w * bpp + 31) `mod` 32).
    intros q m Hok Hdiv Hmod.
    split; simpl; [lia | lia | lia | lia | | lia].
    rewrite length_replicate. nia.
  - done.
  - intros b Hwf Hbpp.
    exists (Sample.stored FIF_PGM (Sample.as_gray b)), (Sample.as_gray b).
    split_and!; try done. by destruct Hwf.
Qed.

Lemma Sample_host2x2_valid : image_valid 1 Sample.host2x2.
Proof. by split. Qed.

Lemma save_load_roundtrip_witness :
  ∃ w1 loaded w2,
    saveImage_8u_C1 Sample.lib "out.bmp" Sample.host2x2 Sample.world
    = (Ok tt, w1)
    ∧ loadImage_8u_C1 Sample.lib Sample.malloc2D "out.bmp"
        (Sample.blank, w1) = (Ok tt, (loaded, w2))
    ∧ width loaded = 2 ∧ height loaded = 2
    ∧ ∀ i, 0 ≤ i < 2 →
        row (data loaded) (pitch loaded) 2 i
        = row (data Sample.host2x2) 3 2 i.
Proof.
  apply (save_load_roundtrip Sample.lib Sample.malloc2D "out.bmp"
           Sample.host2x2 Sample.blank Sample.world).
  - apply Sample_lib_contract.
  - apply Sample_malloc2D_wf.
  - apply Sample_host2x2_valid.
  - eexists. vm_compute. reflexivity.
  - eexists. vm_compute. reflexivity.
Defined.

(** ** Which files the loaders reject *)

(** The four-channel loader's loop runs to the end on a well-formed 32-bit
    bitmap and a host block of the right size. *)
Lemma loadImage_8u_C4_loop b nPitch block :
  FIBITMAP_wf b → fi_bpp b = 32 → 0 < fi_width b → 0 < fi_height b →
  fi_width b * 4 ≤ nPitch →
  Z.of_nat (length block) = nPitch * fi_height b →
  nPitch * fi_height b < 2 ^ 31 →
  ∃ pixels,
    copy_rows_flipped (Z.to_nat (fi_height b)) 0 (fi_height b - 1)
      (fi_bits b) (fi_pitch b) block nPitch (fi_width b * 4) = Some pixels.
Proof.
  intros [_ _ _ Hpitch Hbits Hrange] Hbpp Hw Hh Hrow Hblock Hsmall.
  rewrite Hbpp in Hpitch.
  rewrite copy_rows_flipped_lines by (intros j Hj; nia).
  replace ((fi_height b - 1) * fi_pitch b)
    with (fi_pitch b * (fi_height b - 1)) by lia.
  rewrite Z.mul_0_l.
  destruct (copy_lines_flip_down (fi_height b) (fi_bits b) (fi_pitch b)
              block nPitch (fi_width b * 4)) as (dst' & Hrun & _); [lia..|].
  by exists dst'.
Qed.





(** * Further properties *)

(** ** What the loaders leave behind *)

Ltac run_cases :=
  repeat (case_match; simplify_eq/=); try done.

Lemma loadImage_8u_C1_world FI host_malloc2D name (dest : ImagePacked) w :
  (loadImage_8u_C1 FI host_malloc2D name (dest, w)).2.2
  = set_output_message true w.
Proof.
  unfold loadImage_8u_C1, in_world, FreeImage_SetOutputMessage,
    FreeImage_GetFileType, FreeImage_Load, report, FreeImageErrorHandler,
    ImageCPU_new, NPP_ASSERT, read_local, lift_copy, get, throw, undef,
    ret, bind.
  simpl. run_cases.
Qed.

Lemma loadImage_8u_C4_world FI host_malloc2D name (dest : ImagePacked) w :
  (loadImage_8u_C4 FI host_malloc2D name (dest, w)).2.2 = w.
Proof.
  unfold loadImage_8u_C4, in_world, FreeImage_Load, report,
      FreeImageErrorHandler,
    ImageCPU_new, lift_copy, get, throw, undef, ret, bind.
  simpl. run_cases.
Qed.

(** X1.  Neither loader writes anything.  Whatever the outcome, the gray
    loader leaves the disk and the list of save calls as they were and
    leaves [FreeImageErrorHandler] installed; the four-channel loader leaves
    the whole world as it was. *)
Theorem loaders_final_world FI host_malloc2D name (dest : ImagePacked) w :
  (let w' := (loadImage_8u_C1 FI host_malloc2D name (dest, w)).2.2 in
   files w' = files w ∧ save_calls w' = save_calls w
   ∧ output_message w' = true)
  ∧ (loadImage_8u_C4 FI host_malloc2D name (dest, w)).2.2 = w.
Proof.
  split.
  - simpl. by rewrite loadImage_8u_C1_world.
  - apply loadImage_8u_C4_world.
Qed.

(** X2.  What a loader does is independent of what the destination held:
    called with two different destinations it ends the same way, and when
    it stores an image it stores the same image. *)
Theorem loaders_ignore_destination FI host_malloc2D name
    (dest1 dest2 : ImagePacked) w :
  (let r1 := loadImage_8u_C1 FI host_malloc2D name (dest1, w) in
   let r2 := loadImage_8u_C1 FI host_malloc2D name (dest2, w) in
   r1.1 = r2.1 ∧ (r1.1 = Ok tt → r1.2.1 = r2.2.1))
  ∧ (let r1 := loadImage_8u_C4 FI host_malloc2D name (dest1, w) in
     let r2 := loadImage_8u_C4 FI host_malloc2D name (dest2, w) in
     r1.1 = r2.1 ∧ (r1.1 = Undef MissingReturn → r1.2.1 = r2.2.1)).
Proof.
  split.
  - unfold loadImage_8u_C1, in_world, FreeImage_SetOutputMessage,
      FreeImage_GetFileType, FreeImage_Load, report, FreeImageErrorHandler,
      ImageCPU_new, NPP_ASSERT, read_local, lift_copy, get, throw, undef,
      ret, bind.
    simpl. run_cases.
  - unfold loadImage_8u_C4, in_world, FreeImage_Load, report,
      FreeImageErrorHandler,
      ImageCPU_new, lift_copy, get, throw, undef, ret, bind.
    simpl. run_cases.
Qed.

Lemma loaders_ignore_destination_witness :
  (loadImage_8u_C1 Sample.lib Sample.malloc2D "gray.pgm"
     (Sample.blank, Sample.world)).2.1
  = (loadImage_8u_C1 Sample.lib Sample.malloc2D "gray.pgm"
       (Sample.host2x2, Sample.world)).2.1
  ∧ (loadImage_8u_C4 Sample.lib Sample.malloc2D "rgba.png"
       (Sample.blank, Sample.world)).2.1
    = (loadImage_8u_C4 Sample.lib Sample.malloc2D "rgba.png"
         (Sample.host1x1, Sample.world)).2.1.
Proof.
  split.
  - destruct (loaders_ignore_destination Sample.lib Sample.malloc2D
                "gray.pgm" Sample.blank Sample.host2x2 Sample.world)
      as [[_ Hgray] _].
    apply Hgray. by vm_compute.
  - destruct (loaders_ignore_destination Sample.lib Sample.malloc2D
                "rgba.png" Sample.blank Sample.host1x1 Sample.world)
      as [_ [_ Hrgba]].
    apply Hrgba. by vm_compute.
Defined.

(** ** Failures of the loaders *)

(** X3.  How the four-channel loader reports a file FreeImage cannot decode
    depends on whether [FreeImageErrorHandler] is installed.  When FreeImage
    reports a message for the file, the loader returns false if no handler
    is installed and throws that message if one is; since the gray loader
    installs the handler and never removes it, every four-channel load of
    such a file that follows a gray load throws.  The destination is left
    alone in both cases. *)
Theorem loadImage_8u_C4_reported_failure FI host_malloc2D name dest w f
    zMessage :
  files w !! name = Some f →
  file_load f FIF_PNG = LoadFailed (Some zMessage) →
  loadImage_8u_C4 FI host_malloc2D name (dest, w)
  = (if output_message w then Throw (NppException zMessage) else Ok false,
     (dest, w))
  ∧ ∀ name' dest',
      let w1 := (loadImage_8u_C1 FI host_malloc2D name' (dest', w)).2.2 in
      loadImage_8u_C4 FI host_malloc2D name (dest, w1)
      = (Throw (NppException zMessage), (dest, w1)).
Proof.
  intros Hfile Hload.
  assert (∀ w0, files w0 = files w →
            loadImage_8u_C4 FI host_malloc2D name (dest, w0)
            = (if output_message w0 then Throw (NppException zMessage)
               else Ok false, (dest, w0))) as Hrun.
  { intros w0 Hw0.
    unfold loadImage_8u_C4, in_world, FreeImage_Load, report, get, bind. simpl.
    rewrite Hw0, Hfile, Hload. by destruct (output_message w0). }
  split; [by apply Hrun|].
  intros name' dest'. simpl.
  rewrite loadImage_8u_C1_world. by rewrite Hrun.
Qed.

Lemma loadImage_8u_C4_reported_failure_witness :
  loadImage_8u_C4 Sample.lib Sample.malloc2D "broken.png"
    (Sample.blank, Faulty.world) = (Ok false, (Sample.blank, Faulty.world))
  ∧ (let w1 := (loadImage_8u_C1 Sample.lib Sample.malloc2D "misnamed.png"
                  (Sample.blank, Faulty.world)).2.2 in
     loadImage_8u_C4 Sample.lib Sample.malloc2D "broken.png"
       (Sample.blank, w1)
     = (Throw (NppException "corrupt chunk"), (Sample.blank, w1))).
Proof.
  destruct (loadImage_8u_C4_reported_failure Sample.lib Sample.malloc2D
              "broken.png" Sample.blank Faulty.world Faulty.broken
              "corrupt chunk") as [Hfresh Hafter];
    [by vm_compute | done |].
  split; [exact Hfresh|]. apply Hafter.
Defined.



(** ** How the loaders pick a format *)

(** X5.  The gray loader trusts the signature of a file over its name: when
    the signature identifies a format, the guess FreeImage would make from
    the file name plays no part in the call.  The four-channel loader looks
    at neither: two files that decode alike as PNG are treated alike,
    whatever their signatures, and the name-based guess is never used. *)
Theorem loaders_format_choice FI host_malloc2D name (dest : ImagePacked)
    guess :
  (∀ w f,
     files w !! name = Some f → file_type f ≠ FIF_UNKNOWN →
     loadImage_8u_C1 (with_filename_guess guess FI) host_malloc2D name
       (dest, w)
     = loadImage_8u_C1 FI host_malloc2D name (dest, w))
  ∧ (∀ w w' f f',
       files w !! name = Some f → files w' !! name = Some f' →
       file_load f FIF_PNG = file_load f' FIF_PNG →
       output_message w = output_message w' →
       let r := loadImage_8u_C4 FI host_malloc2D name (dest, w) in
       let r' := loadImage_8u_C4 (with_filename_guess guess FI)
                   host_malloc2D name (dest, w') in
       r.1 = r'.1 ∧ r.2.1 = r'.2.1).
Proof.
  split.
  - intros w f Hfile Htype.
    unfold loadImage_8u_C1, in_world, FreeImage_GetFileType, bind. simpl.
    rewrite Hfile. simpl. by rewrite !decide_False by done.
  - intros w w' f f' Hfile Hfile' Hsame Hmsg.
    unfold loadImage_8u_C4, in_world, FreeImage_Load, report,
      FreeImageErrorHandler,
      ImageCPU_new, lift_copy, get, throw, undef, ret, bind.
    simpl. rewrite Hfile, Hfile', Hsame.
    destruct (file_load f' FIF_PNG) as [d|[msg|]]; simpl; rewrite ?Hmsg;
      run_cases.
Qed.

Lemma loaders_format_choice_witness :
  loadImage_8u_C1 Faulty.lib_png_names Sample.malloc2D "misnamed.png"
    (Sample.blank, Faulty.world)
  = loadImage_8u_C1 Sample.lib Sample.malloc2D "misnamed.png"
      (Sample.blank, Faulty.world)
  ∧ (loadImage_8u_C4 Sample.lib Sample.malloc2D "rgba.png"
       (Sample.blank, Sample.world)).2.1
    = (loadImage_8u_C4 Faulty.lib_png_names Sample.malloc2D "rgba.png"
         (Sample.blank,
          set_files {["rgba.png" := Faulty.bmp_signature]}
                    Sample.world)).2.1.
Proof.
  destruct (loaders_format_choice Sample.lib Sample.malloc2D "misnamed.png"
              Sample.blank (λ _, FIF_PNG)) as [Hgray _].
  destruct (loaders_format_choice Sample.lib Sample.malloc2D "rgba.png"
              Sample.blank (λ _, FIF_PNG)) as [_ Hrgba].
  split.
  - apply (Hgray Faulty.world (Sample.stored FIF_PGM Sample.gray2x2));
      [by vm_compute | done].
  - apply (Hrgba Sample.world
             (set_files {["rgba.png" := Faulty.bmp_signature]} Sample.world)
             (Sample.stored FIF_PNG Sample.bgra1x2) Faulty.bmp_signature);
      [by vm_compute | by vm_compute | done | done].
Defined.

(** ** How a load can end *)

(** X6.  On well-formed bitmaps and a sound allocator the gray loader never
    reads or writes outside a block.  A call ends in one of three ways: it
    returns, it throws, or it reads the unassigned [pBitmap], which happens
    only when the plugin of the detected format cannot read. *)
Theorem loadImage_8u_C1_outcomes FI host_malloc2D name (dest : ImagePacked)
    w :
  host_malloc_wf host_malloc2D → decodes_wf FI w name →
  (loadImage_8u_C1 FI host_malloc2D name (dest, w)).1 = Ok tt
  ∨ (∃ e, (loadImage_8u_C1 FI host_malloc2D name (dest, w)).1 = Throw e)
  ∨ ((loadImage_8u_C1 FI host_malloc2D name (dest, w)).1
     = Undef (UninitializedRead "pBitmap")
     ∧ FIFSupportsReading FI (detected_format FI name w) = false).
Proof.
  intros Hmalloc Hwf.
  unfold loadImage_8u_C1, bind, in_world, detected_format. simpl.
  set (fmt := if decide (from_option file_type FIF_UNKNOWN
                           (files w !! name) = FIF_UNKNOWN)
              then GetFIFFromFilename FI name
              else from_option file_type FIF_UNKNOWN (files w !! name)).
  destruct (decide (fmt = FIF_UNKNOWN)) as [Hfmt|Hfmt].
  { rewrite bool_decide_false by tauto. simpl. right; left. eauto. }
  rewrite bool_decide_true by done. simpl.
  destruct (FIFSupportsReading FI fmt) eqn:Hread; simpl;
    [|by right; right].
  unfold FreeImage_Load, report, bind, get. simpl.
  destruct (files w !! name) as [f|] eqn:Hfile; simpl;
    [|destruct (OpenFailure FI name); simpl; right; left; eauto].
  destruct (file_load f fmt) as [b|[msg|]] eqn:Hload; simpl;
    [|right; left; eauto..].
  destruct (Hwf _ _ _ Hfile Hload) as [Hb _].
  destruct (decide (fi_color_type b = FIC_MINISBLACK)) as [Hcolor|Hcolor];
    [|rewrite bool_decide_false by done; simpl; right; left; eauto].
  rewrite bool_decide_true by done. simpl.
  destruct (decide (fi_bpp b = 8)) as [Hbpp|Hbpp];
    [|rewrite bool_decide_false by done; simpl; right; left; eauto].
  rewrite bool_decide_true by done. simpl.
  unfold ImageCPU_new. case_decide as Hsize; simpl; [right; left; eauto|].
  destruct (host_malloc2D _ _ _) as [[nPitch block]|] eqn:Halloc; simpl;
    [|right; left; eauto].
  destruct (Hmalloc _ _ _ _ _ Halloc) as (Hrow & Hblock & Hsmall).
  destruct (loadImage_8u_C1_loop b nPitch block) as [pixels ->];
    [done | done | lia | lia | done..|].
  by left.
Qed.

Lemma loadImage_8u_C1_outcomes_witness :
  (loadImage_8u_C1 Sample.lib Sample.malloc2D "gray.pgm"
     (Sample.blank, Sample.world)).1 ≠ Undef OutOfBounds.
Proof.
  destruct (loadImage_8u_C1_outcomes Sample.lib Sample.malloc2D "gray.pgm"
              Sample.blank Sample.world Sample_malloc2D_wf
              Sample_decodes_gray_pgm) as [->|[[e ->]|[-> _]]]; done.
Defined.

(** X7.  The gray loader returns exactly when the file is there, a format
    is detected whose plugin can read, the bitmap loaded is 8-bit
    min-is-black with positive width and height, and the host allocator
    provides the buffer.  (Bitmaps well formed, allocator sound.) *)
Theorem loadImage_8u_C1_succeeds_iff FI host_malloc2D name
    (dest : ImagePacked) w :
  host_malloc_wf host_malloc2D → decodes_wf FI w name →
  (loadImage_8u_C1 FI host_malloc2D name (dest, w)).1 = Ok tt
  ↔ ∃ f b,
      files w !! name = Some f
      ∧ detected_format FI name w ≠ FIF_UNKNOWN
      ∧ FIFSupportsReading FI (detected_format FI name w) = true
      ∧ file_load f (detected_format FI name w) = Loaded b
      ∧ fi_color_type b = FIC_MINISBLACK ∧ fi_bpp b = 8
      ∧ 0 < fi_width b ∧ 0 < fi_height b
      ∧ is_Some (host_malloc2D (fi_width b) (fi_height b) 1).
Proof.
  intros Hmalloc Hwf. split.
  - destruct (loadImage_8u_C1 _ _ _ _) as [r [loaded w']] eqn:Hrun.
    simpl. intros ->.
    destruct (loadImage_8u_C1_inv _ _ _ _ _ _ _ Hrun)
      as (f & b & nPitch & block & pixels & ? & ? & ? & ? & ? & ? & ? & ?
          & Halloc & _).
    exists f, b. rewrite Halloc. split_and!; eauto.
  - intros (f & b & Hfile & Hfmt & Hread & Hload & Hcolor & Hbpp & Hw & Hh
            & [[nPitch block] Halloc]).
    destruct (Hwf _ _ _ Hfile Hload) as [Hb _].
    destruct (Hmalloc _ _ _ _ _ Halloc) as (Hrow & Hblock & Hsmall).
    destruct (loadImage_8u_C1_loop b nPitch block) as [pixels Hloop];
      [done..|].
    by rewrite (loadImage_8u_C1_run FI host_malloc2D name dest w f b nPitch
                  block pixels).
Qed.

Lemma loadImage_8u_C1_succeeds_iff_witness :
  (loadImage_8u_C1 Sample.lib Sample.malloc2D "gray.pgm"
     (Sample.blank, Sample.world)).1 = Ok tt.
Proof.
  apply (loadImage_8u_C1_succeeds_iff Sample.lib Sample.malloc2D "gray.pgm"
           Sample.blank Sample.world Sample_malloc2D_wf
           Sample_decodes_gray_pgm).
  exists (Sample.stored FIF_PGM Sample.gray2x2), Sample.gray2x2.
  split_and!; try done; by vm_compute.
Defined.

(** X8.  On well-formed bitmaps and a sound allocator the four-channel
    loader never reads or writes outside a block and its [int] arithmetic
    never overflows.  A call ends in one of three ways: it returns false,
    it throws, or it stores the image and runs off the end of the body. *)
Theorem loadImage_8u_C4_outcomes FI host_malloc2D name (dest : ImagePacked)
    w :
  host_malloc_wf host_malloc2D → decodes_wf FI w name →
  (loadImage_8u_C4 FI host_malloc2D name (dest, w)).1 = Ok false
  ∨ (∃ e, (loadImage_8u_C4 FI host_malloc2D name (dest, w)).1 = Throw e)
  ∨ (loadImage_8u_C4 FI host_malloc2D name (dest, w)).1
    = Undef MissingReturn.
Proof.
  intros Hmalloc Hwf.
  unfold loadImage_8u_C4, in_world, FreeImage_Load, report, get, bind. simpl.
  destruct (files w !! name) as [f|] eqn:Hfile; simpl;
    [|destruct (OpenFailure FI name), (output_message w); simpl;
      first [by left | right; left; eauto]].
  destruct (file_load f FIF_PNG) as [d|[msg|]] eqn:Hload; simpl;
    [|destruct (output_message w); simpl; [right; left; eauto | by left]
     |by left].
  destruct (Hwf _ _ _ Hfile Hload) as [_ Hconv].
  unfold ImageCPU_new. case_decide as Hsize; simpl; [right; left; eauto|].
  destruct (host_malloc2D _ _ _) as [[nPitch block]|] eqn:Halloc; simpl;
    [|right; left; eauto].
  destruct (ConvertTo32Bits FI d) as [b|] eqn:Hb; simpl in *;
    [|change (wrap_int 0) with 0 in Hsize; lia].
  destruct (Hconv b eq_refl) as [Hwfb Hbpp].
  destruct (FIBITMAP_wf_int b) as [Hwi Hhi]; [done | lia | lia | lia |].
  rewrite Hwi, Hhi in *.
  destruct (Hmalloc _ _ _ _ _ Halloc) as (Hrow & Hblock & Hsmall).
  assert (fi_width b * 4 ≤ fi_pitch b)
    by (destruct Hwfb as [_ _ _ Hpitch _ _]; lia).
  assert (fi_pitch b < 2 ^ 31) by (destruct Hwfb; nia).
  rewrite decide_True by (unfold INT_MIN, INT_MAX; lia). simpl.
  destruct (loadImage_8u_C4_loop b nPitch block) as [pixels ->];
    [done | done | lia | lia | done..|].
  by right; right.
Qed.

Lemma loadImage_8u_C4_outcomes_witness :
  (loadImage_8u_C4 Sample.lib Sample.malloc2D "rgba.png"
     (Sample.blank, Sample.world)).1 ≠ Undef OutOfBounds
  ∧ (loadImage_8u_C4 Sample.lib Sample.malloc2D "rgba.png"
       (Sample.blank, Sample.world)).1 ≠ Undef SignedOverflow.
Proof.
  destruct (loadImage_8u_C4_outcomes Sample.lib Sample.malloc2D "rgba.png"
              Sample.blank Sample.world Sample_malloc2D_wf
              Sample_decodes_rgba_png) as [Hr|[[e Hr]|Hr]];
    rewrite Hr; done.
Defined.

(** ** The encoders *)

(** The encoders' loop on a valid image of [bytes] bytes per pixel and a
    freshly allocated bitmap of the same size and of depth [8 * bytes]. *)
Lemma saveImage_loop bytes (rImage : ImagePacked) b0 :
  0 < bytes → image_valid bytes rImage → FIBITMAP_wf b0 →
  fi_width b0 = width rImage → fi_height b0 = height rImage →
  fi_bpp b0 = 8 * bytes →
  ∃ bits,
    copy_lines (Z.to_nat (height rImage)) (data rImage) 0
      (wrap_uint (pitch rImage)) (fi_bits b0)
      (wrap_uint (fi_pitch b0 * (height rImage - 1))) (- fi_pitch b0)
      (width rImage * bytes) = Some bits
    ∧ length bits = length (fi_bits b0)
    ∧ ∀ i, 0 ≤ i < height rImage →
        row bits (fi_pitch b0) (width rImage * bytes) (height rImage - 1 - i)
        = row (data rImage) (pitch rImage) (width rImage * bytes) i.
Proof.
  intros Hbytes [Hw Hh Hp Hdata Hrange] [_ _ _ Hpitch Hbits Hrange0]
    Hw0 Hh0 Hbpp.
  rewrite Hw0, Hbpp in Hpitch. rewrite Hh0 in Hbits, Hrange0.
  assert (width rImage * bytes ≤ fi_pitch b0) by lia.
  assert (0 < width rImage * bytes) by nia.
  rewrite (wrap_uint_small (pitch rImage)) by nia.
  rewrite (wrap_uint_small (fi_pitch b0 * _)) by nia.
  destruct (copy_lines_flip_up (height rImage) (data rImage) (pitch rImage)
              (fi_bits b0) (fi_pitch b0) (width rImage * bytes))
    as (bits & Hrun & Hlen & Hrows); [lia..|].
  by exists bits.
Qed.

(** A failed [FreeImage_Save] and the assertion after it: the call throws,
    the library's message if it reports one to an installed handler and the
    assertion's otherwise; only the path given can have changed. *)
Lemma save_failed FI fif dib name w :
  Encode FI fif dib = None →
  ∃ w',
    (do bSuccess <- FreeImage_Save FI fif dib name;
     NPP_ASSERT_MSG bSuccess "Failed to save result image.") w
    = (Throw (NppException
                (if output_message w
                 then default "Failed to save result image."
                              (SaveFailure FI fif dib).1
                 else "Failed to save result image.")), w')
    ∧ save_calls w' = save_calls w ++ [(fif, name)]
    ∧ output_message w' = output_message w
    ∧ ∀ p, p ≠ name → files w' !! p = files w !! p.
Proof.
  intros Hencode.
  unfold FreeImage_Save, report, FreeImageErrorHandler, NPP_ASSERT_MSG,
    NPP_ASSERT, get, ret, throw, bind.
  rewrite Hencode.
  destruct (SaveFailure FI fif dib) as [[msg|] [f|]]; simpl;
    destruct (output_message w) eqn:Hmsg; simpl; rewrite ?Hmsg;
    eexists; (split; [reflexivity|]); simpl;
    (split_and!; [done | done |]); intros p Hp; simpl;
    by rewrite ?lookup_insert_ne.
Qed.

(** A run of [saveImage] with format [fif] on a valid image: it throws when
    the bitmap cannot be allocated, and otherwise hands [FreeImage_Save] a
    bitmap of the image's size whose stored lines are the rows of the image
    in reverse order. *)
Lemma save_run_valid FI fif bytes rFileName (rImage : ImagePacked) w :
  Allocate_contract FI → 0 < bytes → image_valid bytes rImage →
  let outcome :=
    (do pResultBitmap <- NPP_ASSERT_NOT_NULL
        (Allocate FI (width rImage) (height rImage) (8 * bytes))
        "pResultBitmap";
     do bits <- lift_copy
       (copy_lines (Z.to_nat (height rImage))
                   (data rImage) 0 (wrap_uint (pitch rImage))
                   (fi_bits pResultBitmap)
                   (wrap_uint (fi_pitch pResultBitmap * (height rImage - 1)))
                   (- fi_pitch pResultBitmap) (width rImage * bytes));
     do bSuccess <- FreeImage_Save FI fif (set_bits bits pResultBitmap)
                                   rFileName;
     NPP_ASSERT_MSG bSuccess "Failed to save result image.") w in
  (Allocate FI (width rImage) (height rImage) (8 * bytes) = None
   ∧ outcome = (Throw (NppException "pResultBitmap"), w))
  ∨ ∃ b,
      fi_width b = width rImage ∧ fi_height b = height rImage
      ∧ fi_bpp b = 8 * bytes ∧ FIBITMAP_wf b
      ∧ (∀ i, 0 ≤ i < height rImage →
           row (fi_bits b) (fi_pitch b) (width rImage * bytes)
               (height rImage - 1 - i)
           = row (data rImage) (pitch rImage) (width rImage * bytes) i)
      ∧ outcome
        = match Encode FI fif b with
          | Some f => (Ok tt, set_files (<[rFileName := f]> (files w))
                                        (log_save fif rFileName w))
          | None =>
              (do bSuccess <- FreeImage_Save FI fif b rFileName;
               NPP_ASSERT_MSG bSuccess "Failed to save result image.") w
          end.
Proof.
  intros Halloc Hbytes Hvalid. simpl. unfold bind, NPP_ASSERT_NOT_NULL.
  destruct (Allocate FI _ _ _) as [b0|] eqn:Hb0; simpl; [|by left].
  right.
  destruct (Halloc _ _ _ _ Hb0) as (Hw0 & Hh0 & Hbpp0 & Hwf0).
  destruct (saveImage_loop bytes rImage b0) as (bits & -> & Hlen & Hrows);
    [done..|].
  exists (set_bits bits b0). simpl. split_and!; [done..| | done |].
  - destruct Hwf0. split; simpl; [done..| |done]. by rewrite Hlen.
  - destruct (Encode FI fif _) eqn:Hencode; [|done].
    unfold FreeImage_Save. by rewrite Hencode.
Qed.

Lemma saveImage_8u_C1_valid FI rFileName (rImage : ImagePacked) w :
  Allocate_contract FI → image_valid 1 rImage →
  (Allocate FI (width rImage) (height rImage) 8 = None
   ∧ saveImage_8u_C1 FI rFileName rImage w
     = (Throw (NppException "pResultBitmap"), w))
  ∨ ∃ b,
      fi_width b = width rImage ∧ fi_height b = height rImage
      ∧ fi_bpp b = 8 ∧ FIBITMAP_wf b
      ∧ (∀ i, 0 ≤ i < height rImage →
           row (fi_bits b) (fi_pitch b) (width rImage * 1)
               (height rImage - 1 - i)
           = row (data rImage) (pitch rImage) (width rImage * 1) i)
      ∧ saveImage_8u_C1 FI rFileName rImage w
        = match Encode FI FIF_PGM b with
          | Some f => (Ok tt, set_files (<[rFileName := f]> (files w))
                                        (log_save FIF_PGM rFileName w))
          | None =>
              (do bSuccess <- FreeImage_Save FI FIF_PGM b rFileName;
               NPP_ASSERT_MSG bSuccess "Failed to save result image.") w
          end.
Proof.
  intros Halloc Hvalid.
  exact (save_run_valid FI FIF_PGM 1 rFileName rImage w Halloc eq_refl
           Hvalid).
Qed.

Lemma saveImage_8u_C4_valid FI rFileName (rImage : ImagePacked) w :
  Allocate_contract FI → image_valid 4 rImage →
  (Allocate FI (width rImage) (height rImage) 32 = None
   ∧ saveImage_8u_C4 FI rFileName rImage w
     = (Throw (NppException "pResultBitmap"), w))
  ∨ ∃ b,
      fi_width b = width rImage ∧ fi_height b = height rImage
      ∧ fi_bpp b = 32 ∧ FIBITMAP_wf b
      ∧ (∀ i, 0 ≤ i < height rImage →
           row (fi_bits b) (fi_pitch b) (width rImage * 4)
               (height rImage - 1 - i)
           = row (data rImage) (pitch rImage) (width rImage * 4) i)
      ∧ saveImage_8u_C4 FI rFileName rImage w
        = match Encode FI FIF_PNG b with
          | Some f => (Ok tt, set_files (<[rFileName := f]> (files w))
                                        (log_save FIF_PNG rFileName w))
          | None =>
              (do bSuccess <- FreeImage_Save FI FIF_PNG b rFileName;
               NPP_ASSERT_MSG bSuccess "Failed to save result image.") w
          end.
Proof.
  intros Halloc Hvalid.
  exact (save_run_valid FI FIF_PNG 4 rFileName rImage w Halloc eq_refl
           Hvalid).
Qed.

(** The ways a save of a valid image with format [fif] can end. *)
Lemma save_outcomes_of FI fif (rImage : ImagePacked) rFileName w r w'
    (allocated : option FIBITMAP) :
  (allocated = None ∧ (r, w') = (Throw (NppException "pResultBitmap"), w))
  ∨ (∃ b, (r, w')
          = match Encode FI fif b with
            | Some f => (Ok tt, set_files (<[rFileName := f]> (files w))
                                          (log_save fif rFileName w))
            | None =>
                (do bSuccess <- FreeImage_Save FI fif b rFileName;
                 NPP_ASSERT_MSG bSuccess "Failed to save result image.") w
            end) →
  ((r = Ok tt ∧ is_Some (files w' !! rFileName))
   ∨ (r = Throw (NppException "pResultBitmap") ∧ w' = w)
   ∨ (∃ b, Encode FI fif b = None
           ∧ r = Throw (NppException
                          (if output_message w
                           then default "Failed to save result image."
                                        (SaveFailure FI fif b).1
                           else "Failed to save result image."))))
  ∧ output_message w' = output_message w
  ∧ ∀ p, p ≠ rFileName → files w' !! p = files w !! p.
Proof.
  intros [[_ [= -> ->]]|[b Hrun]].
  { split_and!; [by right; left | done..]. }
  destruct (Encode FI fif b) as [f|] eqn:Hencode.
  - injection Hrun as -> ->. split_and!; [left | done |].
    + split; [done|]. simpl. rewrite lookup_insert_eq. eauto.
    + intros p Hp. simpl. by rewrite lookup_insert_ne.
  - destruct (save_failed FI fif b rFileName w Hencode)
      as (w1 & Hfail & _ & Hmsg & Hframe).
    rewrite Hfail in Hrun. injection Hrun as -> ->.
    split_and!; [right; right; eauto | done..].
Qed.

(** X9.  Saving a valid image (allocator keeping its contract) never reads
    or writes outside a block.  A call ends in one of three ways: it
    returns, having written the file; it throws because the bitmap could not
    be allocated, and then nothing was asked of the encoder and the world is
    as it was; or it throws because [FreeImage_Save] failed, with the
    message the library reported if a handler is installed and there is
    one, and with "Failed to save result image." otherwise. *)
Theorem savers_outcomes FI rFileName (rImage : ImagePacked) w :
  Allocate_contract FI →
  (image_valid 1 rImage →
   let '(r, w') := saveImage_8u_C1 FI rFileName rImage w in
   (r = Ok tt ∧ is_Some (files w' !! rFileName))
   ∨ (r = Throw (NppException "pResultBitmap") ∧ w' = w)
   ∨ (∃ b, Encode FI FIF_PGM b = None
           ∧ r = Throw (NppException
                          (if output_message w
                           then default "Failed to save result image."
                                        (SaveFailure FI FIF_PGM b).1
                           else "Failed to save result image."))))
  ∧ (image_valid 4 rImage →
     let '(r, w') := saveImage_8u_C4 FI rFileName rImage w in
     (r = Ok tt ∧ is_Some (files w' !! rFileName))
     ∨ (r = Throw (NppException "pResultBitmap") ∧ w' = w)
     ∨ (∃ b, Encode FI FIF_PNG b = None
             ∧ r = Throw (NppException
                            (if output_message w
                             then default "Failed to save result image."
                                          (SaveFailure FI FIF_PNG b).1
                             else "Failed to save result image.")))).
Proof.
  intros Halloc. split; intros Hvalid.
  - destruct (saveImage_8u_C1 FI rFileName rImage w) as [r w'] eqn:Hrun.
    eapply (save_outcomes_of FI FIF_PGM rImage rFileName w r w').
    destruct (saveImage_8u_C1_valid FI rFileName rImage w Halloc Hvalid)
      as [[Hnone Hthrow]|(b & _ & _ & _ & _ & _ & Hsave)].
    + left. split; [exact Hnone|]. by rewrite <- Hrun.
    + right. exists b. by rewrite <- Hrun.
  - destruct (saveImage_8u_C4 FI rFileName rImage w) as [r w'] eqn:Hrun.
    eapply (save_outcomes_of FI FIF_PNG rImage rFileName w r w').
    destruct (saveImage_8u_C4_valid FI rFileName rImage w Halloc Hvalid)
      as [[Hnone Hthrow]|(b & _ & _ & _ & _ & _ & Hsave)].
    + left. split; [exact Hnone|]. by rewrite <- Hrun.
    + right. exists b. by rewrite <- Hrun.
Qed.

Lemma Sample_lib_allocates : Allocate_contract Sample.lib.
Proof. by destruct Sample_lib_contract. Qed.

Lemma Sample_host1x1_valid : image_valid 4 Sample.host1x1.
Proof. by split. Qed.

Lemma savers_outcomes_witness :
  (let '(r, w') := saveImage_8u_C1 Sample.lib "out.bmp" Sample.host2x2
                     Sample.world in
   (r = Ok tt ∧ is_Some (files w' !! "out.bmp"))
   ∨ (r = Throw (NppException "pResultBitmap") ∧ w' = Sample.world)
   ∨ (∃ b, Sample.encode FIF_PGM b = None
           ∧ r = Throw (NppException "Failed to save result image.")))
  ∧ (let '(r, w') := saveImage_8u_C4 Faulty.lib_no_memory "out.png"
                       Sample.host1x1 Sample.world in
     (r = Ok tt ∧ is_Some (files w' !! "out.png"))
     ∨ (r = Throw (NppException "pResultBitmap") ∧ w' = Sample.world)
     ∨ (∃ b, Sample.encode FIF_PNG b = None
             ∧ r = Throw (NppException "Failed to save result image."))).
Proof.
  split.
  - apply (savers_outcomes Sample.lib "out.bmp" Sample.host2x2 Sample.world
             Sample_lib_allocates).
    apply Sample_host2x2_valid.
  - apply (savers_outcomes Faulty.lib_no_memory "out.png" Sample.host1x1
             Sample.world); [done|].
    apply Sample_host1x1_valid.
Defined.

(** X10.  A save of a valid image (allocator keeping its contract) changes
    no file other than the one at the path it is given, whether it returns
    or throws, and does not touch the error handler setting. *)
Theorem savers_touch_only_the_path FI rFileName (rImage : ImagePacked) w :
  Allocate_contract FI →
  (image_valid 1 rImage →
   let w' := (saveImage_8u_C1 FI rFileName rImage w).2 in
   output_message w' = output_message w
   ∧ ∀ p, p ≠ rFileName → files w' !! p = files w !! p)
  ∧ (image_valid 4 rImage →
     let w' := (saveImage_8u_C4 FI rFileName rImage w).2 in
     output_message w' = output_message w
     ∧ ∀ p, p ≠ rFileName → files w' !! p = files w !! p).
Proof.
  intros Halloc. split; intros Hvalid.
  - destruct (saveImage_8u_C1 FI rFileName rImage w) as [r w'] eqn:Hrun.
    eapply (save_outcomes_of FI FIF_PGM rImage rFileName w r w').
    destruct (saveImage_8u_C1_valid FI rFileName rImage w Halloc Hvalid)
      as [[Hnone Hthrow]|(b & _ & _ & _ & _ & _ & Hsave)].
    + left. split; [exact Hnone|]. by rewrite <- Hrun.
    + right. exists b. by rewrite <- Hrun.
  - destruct (saveImage_8u_C4 FI rFileName rImage w) as [r w'] eqn:Hrun.
    eapply (save_outcomes_of FI FIF_PNG rImage rFileName w r w').
    destruct (saveImage_8u_C4_valid FI rFileName rImage w Halloc Hvalid)
      as [[Hnone Hthrow]|(b & _ & _ & _ & _ & _ & Hsave)].
    + left. split; [exact Hnone|]. by rewrite <- Hrun.
    + right. exists b. by rewrite <- Hrun.
Qed.

Lemma savers_touch_only_the_path_witness :
  files (saveImage_8u_C1 Sample.lib "out.bmp" Sample.host2x2
           Sample.world).2 !! "gray.pgm"
  = files Sample.world !! "gray.pgm"
  ∧ output_message (saveImage_8u_C4 Sample.lib "out.png" Sample.host1x1
                      Sample.world).2
    = output_message Sample.world.
Proof.
  split.
  - destruct (savers_touch_only_the_path Sample.lib "out.bmp" Sample.host2x2
                Sample.world Sample_lib_allocates) as [Hgray _].
    destruct (Hgray Sample_host2x2_valid) as [_ Hother]. by apply Hother.
  - destruct (savers_touch_only_the_path Sample.lib "out.png" Sample.host1x1
                Sample.world Sample_lib_allocates) as [_ Hrgba].
    by destruct (Hrgba Sample_host1x1_valid) as [Hmsg _].
Defined.

(** X11.  What a successful save of a valid image writes: the file at the
    path is the encoding (PGM for gray, PNG for four channels) of a bitmap
    of the image's size in which stored line [height - 1 - i] holds row [i]
    of the image, so the image is stored bottom line first. *)
Theorem savers_store_bottom_up FI rFileName (rImage : ImagePacked) w w' :
  Allocate_contract FI →
  (image_valid 1 rImage →
   saveImage_8u_C1 FI rFileName rImage w = (Ok tt, w') →
   ∃ b f,
     Encode FI FIF_PGM b = Some f ∧ files w' !! rFileName = Some f
     ∧ fi_width b = width rImage ∧ fi_height b = height rImage
     ∧ fi_bpp b = 8
     ∧ ∀ i, 0 ≤ i < height rImage →
         row (fi_bits b) (fi_pitch b) (width rImage * 1)
             (height rImage - 1 - i)
         = row (data rImage) (pitch rImage) (width rImage * 1) i)
  ∧ (image_valid 4 rImage →
     saveImage_8u_C4 FI rFileName rImage w = (Ok tt, w') →
     ∃ b f,
       Encode FI FIF_PNG b = Some f ∧ files w' !! rFileName = Some f
       ∧ fi_width b = width rImage ∧ fi_height b = height rImage
       ∧ fi_bpp b = 32
       ∧ ∀ i, 0 ≤ i < height rImage →
           row (fi_bits b) (fi_pitch b) (width rImage * 4)
               (height rImage - 1 - i)
           = row (data rImage) (pitch rImage) (width rImage * 4) i).
Proof.
  intros Halloc. split; intros Hvalid Hrun.
  - destruct (saveImage_8u_C1_valid FI rFileName rImage w Halloc Hvalid)
      as [[_ Hthrow]|(b & Hw & Hh & Hbpp & _ & Hrows & Hsave)];
      [congruence|].
    rewrite Hrun in Hsave.
    destruct (Encode FI FIF_PGM b) as [f|] eqn:Hencode;
      [|by destruct (save_failed FI FIF_PGM b rFileName w Hencode)
           as (? & Hfail & _); rewrite Hfail in Hsave].
    injection Hsave as ->. exists b, f.
    split_and!; [done | apply lookup_insert_eq | done..].
  - destruct (saveImage_8u_C4_valid FI rFileName rImage w Halloc Hvalid)
      as [[_ Hthrow]|(b & Hw & Hh & Hbpp & _ & Hrows & Hsave)];
      [congruence|].
    rewrite Hrun in Hsave.
    destruct (Encode FI FIF_PNG b) as [f|] eqn:Hencode;
      [|by destruct (save_failed FI FIF_PNG b rFileName w Hencode)
           as (? & Hfail & _); rewrite Hfail in Hsave].
    injection Hsave as ->. exists b, f.
    split_and!; [done | apply lookup_insert_eq | done..].
Qed.

Lemma savers_store_bottom_up_witness :
  (∃ b, row (fi_bits b) (fi_pitch b) 2 1 = [Byte.x03; Byte.x04]
        ∧ row (fi_bits b) (fi_pitch b) 2 0 = [Byte.x01; Byte.x02]
        ∧ is_Some (Sample.encode FIF_PGM b))
  ∧ (∃ b, row (fi_bits b) (fi_pitch b) 4 0
          = [Byte.x0a; Byte.x0b; Byte.x0c; Byte.xff]
          ∧ is_Some (Sample.encode FIF_PNG b)).
Proof.
  split.
  - destruct (saveImage_8u_C1 Sample.lib "out.bmp" Sample.host2x2
                Sample.world) as [r w'] eqn:Hrun.
    assert (r = Ok tt) as ->
      by (by vm_compute in Hrun; injection Hrun as <- _).
    destruct (savers_store_bottom_up Sample.lib "out.bmp" Sample.host2x2
                Sample.world w' Sample_lib_allocates) as [Hgray _].
    destruct (Hgray Sample_host2x2_valid Hrun)
      as (b & f & Hencode & _ & _ & _ & _ & Hrows).
    exists b. split_and!.
    + etrans; [apply (Hrows 0); simpl; lia | by vm_compute].
    + etrans; [apply (Hrows 1); simpl; lia | by vm_compute].
    + eauto.
  - destruct (saveImage_8u_C4 Sample.lib "out.jpg" Sample.host1x1
                Sample.world) as [r w'] eqn:Hrun.
    assert (r = Ok tt) as ->
      by (by vm_compute in Hrun; injection Hrun as <- _).
    destruct (savers_store_bottom_up Sample.lib "out.jpg" Sample.host1x1
                Sample.world w' Sample_lib_allocates) as [_ Hrgba].
    destruct (Hrgba Sample_host1x1_valid Hrun)
      as (b & f & Hencode & _ & _ & _ & _ & Hrows).
    exists b. split.
    + etrans; [apply (Hrows 0); simpl; lia | by vm_compute].
    + eauto.
Defined.

(** ** Saving and loading a four-channel image *)

(** X12.  Saving a valid four-channel host image and loading the written
    file with the four-channel loader puts into the caller's buffer an
    image of the same size whose rows hold the same pixels (the first
    [4 * width] bytes of every row).  The codec is assumed to keep its
    contract for PNG and the two allocations to succeed.  The load ends by
    running off the end of the loader's body. *)
Theorem save_load_roundtrip_C4 FI host_malloc2D rFileName
    (rImage dest : ImagePacked) w :
  Allocate_contract FI → PNG_contract FI → host_malloc_wf host_malloc2D →
  image_valid 4 rImage →
  is_Some (Allocate FI (width rImage) (height rImage) 32) →
  is_Some (host_malloc2D (width rImage) (height rImage) 4) →
  ∃ w1 loaded,
    saveImage_8u_C4 FI rFileName rImage w = (Ok tt, w1)
    ∧ loadImage_8u_C4 FI host_malloc2D rFileName (dest, w1)
      = (Undef MissingReturn, (loaded, w1))
    ∧ width loaded = width rImage ∧ height loaded = height rImage
    ∧ ∀ i, 0 ≤ i < height rImage →
        row (data loaded) (pitch loaded) (width rImage * 4) i
        = row (data rImage) (pitch rImage) (width rImage * 4) i.
Proof.
  intros Halloc Hpng Hmalloc Hvalid [b0 Hb0] [[nPitch block] Hblock].
  destruct (saveImage_8u_C4_valid FI rFileName rImage w Halloc Hvalid)
    as [[Hnone _]|(b & Hw & Hh & Hbpp & Hwf & Hsaved & Hsave)];
    [congruence|].
  destruct (Hpng b Hwf Hbpp)
    as (f & d & b' & Hencode & Hload & Hconv & Hwf' & Hbpp' & Hw' & Hh'
        & Hpixels).
  rewrite Hencode in Hsave. rewrite Hw in Hw', Hpixels.
  rewrite Hh in Hh', Hpixels.
  set (w1 := set_files (<[rFileName := f]> (files w))
                       (log_save FIF_PNG rFileName w)) in *.
  assert (files w1 !! rFileName = Some f) as Hfile by apply lookup_insert_eq.
  destruct Hvalid as [Hwpos Hhpos Hp Hdata Hrange].
  destruct (Hmalloc _ _ _ _ _ Hblock) as (Hrow & Hsize & Hsmall).
  assert (wrap_int (fi_width b') = fi_width b'
          ∧ wrap_int (fi_height b') = fi_height b') as [Hwi Hhi].
  { destruct Hwf' as [_ _ _ Hpitch _ Hrange']. rewrite Hbpp' in Hpitch.
    split; apply wrap_int_small; nia. }
  destruct (loadImage_8u_C4_loop b' nPitch block) as [pixels Hloop];
    [done | done | lia | lia | by rewrite Hw' | by rewrite Hh'
    | by rewrite Hh' |].
  pose proof (loadImage_8u_C4_run FI host_malloc2D rFileName dest w1 f d b'
                nPitch block pixels Hfile Hload Hconv) as Hrun.
  rewrite Hwi, Hhi in Hrun.
  assert (fi_width b' * 4 ≤ INT_MAX) as Hint by (unfold INT_MAX; nia).
  specialize (Hrun ltac:(lia) ltac:(lia) Hint ltac:(by rewrite Hw', Hh')
                Hloop).
  exists w1, {| width := fi_width b'; height := fi_height b';
               pitch := nPitch; data := pixels |}.
  split_and!; [done..|].
  intros i Hi. simpl.
  pose proof (loadImage_8u_C4_rows b' nPitch block pixels Hwf' Hbpp'
                ltac:(lia) ltac:(lia) ltac:(by rewrite Hw')
                ltac:(by rewrite Hh') ltac:(by rewrite Hh') Hloop i
                ltac:(lia)) as Hloaded.
  rewrite Hw', Hh' in Hloaded. rewrite Hloaded.
  rewrite (Hpixels (height rImage - 1 - i)) by lia.
  by rewrite <- (Hsaved i Hi).
Qed.

Lemma Sample_lib_png : PNG_contract Sample.lib.
Proof.
  intros b Hwf Hbpp.
  exists (Sample.stored FIF_PNG b), b, b. split_and!; try done.
  simpl. unfold Sample.convert. by rewrite decide_True.
Qed.

Lemma save_load_roundtrip_C4_witness :
  ∃ w1 loaded,
    saveImage_8u_C4 Sample.lib "out.jpg" Sample.host1x1 Sample.world
    = (Ok tt, w1)
    ∧ loadImage_8u_C4 Sample.lib Sample.malloc2D "out.jpg"
        (Sample.blank, w1) = (Undef MissingReturn, (loaded, w1))
    ∧ width loaded = 1 ∧ height loaded = 1
    ∧ ∀ i, 0 ≤ i < 1 →
        row (data loaded) (pitch loaded) 4 i
        = row (data Sample.host1x1) 4 4 i.
Proof.
  apply (save_load_roundtrip_C4 Sample.lib Sample.malloc2D "out.jpg"
           Sample.host1x1 Sample.blank Sample.world).
  - apply Sample_lib_allocates.
  - apply Sample_lib_png.
  - apply Sample_malloc2D_wf.
  - apply Sample_host1x1_valid.
  - eexists. vm_compute. reflexivity.
  - eexists. vm_compute. reflexivity.
Defined.

(** ** How a construction of a mip level can end *)

(** X13.  A construction of a mip level ends in exactly one of three ways.
    The device buffer cannot be had (size not positive, or the allocator
    fails): it throws "AllocationError" and the primitive is not invoked.
    The primitive is invoked once and reports a status other than success:
    it throws.  The primitive is invoked once and reports success: the
    chunk returned has the requested size as [Size], a [GPUMemory] of that
    size with the allocator's stride, holding what the primitive wrote. *)
Theorem MipMapChunk_new_outcomes NPP srcImage width' height' streamCtx
    eInterpolation' calls :
  let out := MipMapChunk_new NPP srcImage width' height' streamCtx
               eInterpolation' calls in
  (out = (Throw (NppException "AllocationError"), calls)
   ∧ (width' ≤ 0 ∨ height' ≤ 0
      ∨ nppiMalloc_8u_C4 NPP width' height' = None))
  ∨ ∃ nPitch block c,
      0 < width' ∧ 0 < height'
      ∧ nppiMalloc_8u_C4 NPP width' height' = Some (nPitch, block)
      ∧ out.2 = calls ++ [c]
      ∧ pDst c = block ∧ nDstStep c = nPitch
      ∧ (((nppiResize_8u_C4R_Ctx NPP c).1 ≠ NPP_SUCCESS
          ∧ out.1 = Throw (NppException "eStatusNPP == NPP_SUCCESS"))
         ∨ ((nppiResize_8u_C4R_Ctx NPP c).1 = NPP_SUCCESS
            ∧ out.1 = Ok {| GPUMemory :=
                              {| width := width'; height := height';
                                 pitch := nPitch;
                                 data := (nppiResize_8u_C4R_Ctx NPP c).2 |};
                            Size := {| size_width := width';
                                       size_height := height' |} |})).
Proof.
  simpl.
  destruct (decide (width' ≤ 0 ∨ height' ≤ 0)) as [Hsize|Hsize].
  { left. split; [|tauto]. apply MipMapChunk_new_not_allocated. tauto. }
  destruct (nppiMalloc_8u_C4 NPP width' height') as [[nPitch block]|]
    eqn:Halloc.
  - right. assert (0 < width') as Hw by lia.
    assert (0 < height') as Hh by lia.
    rewrite (MipMapChunk_new_allocated _ _ _ _ _ _ _ _ _ Hw Hh Halloc).
    eexists nPitch, block, _. split_and!; [done..|].
    simpl. case_decide; [right | left]; done.
  - left. split; [|tauto]. apply MipMapChunk_new_not_allocated. tauto.
Qed.

Lemma MipMapChunk_new_outcomes_witness :
  ∃ chunk c,
    MipMapChunk_new Sample.npp Sample.device4x4 2 2 7 None []
    = (Ok chunk, [c])
    ∧ Size chunk = {| size_width := 2; size_height := 2 |}
    ∧ width (GPUMemory chunk) = 2 ∧ height (GPUMemory chunk) = 2.
Proof.
  destruct (MipMapChunk_new_outcomes Sample.npp Sample.device4x4 2 2 7 None
              []) as [[_ [?|[?|Hnone]]]|(nPitch & block & c & _ & _ & Halloc
                                           & Hcalls & _ & _ & Hend)];
    [lia | lia | by vm_compute in Hnone |].
  destruct Hend as [[Hfail _]|[_ Hok]]; [by vm_compute in Hfail|].
  destruct (MipMapChunk_new _ _ _ _ _ _ _) as [r calls'].
  simpl in Hcalls, Hok. subst r calls'.
  eexists _, c. split_and!; done.
Defined.

(** ** Device copies of gray images *)

Lemma copy_lines_length n : ∀ src pS sStep dst pD dStep len dst',
  copy_lines n src pS sStep dst pD dStep len = Some dst' →
  length dst' = length dst.
Proof.
  induction n as [|n IH]; intros src pS sStep dst pD dStep len dst'; simpl.
  - by intros [= <-].
  - destruct (memcpy dst pD src pS len) as [dst1|] eqn:Hcpy; [|done].
    intros Hrun. rewrite (IH _ _ _ _ _ _ _ _ Hrun).
    by eapply memcpy_length.
Qed.

(** The loop of an upload or a download: both pointers start at row 0 and
    walk up, so row [i] of the result is row [i] of the source. *)
Lemma copy_lines_straight h src spitch dst dpitch len :
  0 < h → 0 ≤ len → len ≤ dpitch → len ≤ spitch →
  Z.of_nat (length src) = spitch * h →
  Z.of_nat (length dst) = dpitch * h →
  ∃ dst',
    copy_lines (Z.to_nat h) src 0 spitch dst 0 dpitch len = Some dst'
    ∧ length dst' = length dst
    ∧ ∀ i, 0 ≤ i < h → row dst' dpitch len i = row src spitch len i.
Proof.
  intros Hh Hlen Hd Hs Hsrc Hdst.
  destruct (copy_lines_spec (Z.to_nat h) src 0 spitch dst 0 dpitch len)
    as (dst' & Hrun & Hlen' & Hrows & _).
  - done.
  - by left.
  - intros j Hj. rewrite Hsrc, Hdst. nia.
  - exists dst'. split_and!; [done..|].
    intros i Hi. apply row_ext; [nia | nia |].
    intros k Hk. specialize (Hrows i k ltac:(lia) Hk).
    by rewrite !Z.add_0_l in Hrows.
Qed.

(** Uploading a valid host image to a device whose allocator is sound. *)
Lemma ImageNPP_8u_C1_from_host_valid {S} device_malloc2D
    (rImage : ImagePacked) (s : S) :
  host_malloc_wf device_malloc2D → image_valid 1 rImage →
  (device_malloc2D (width rImage) (height rImage) 1 = None
   ∧ ImageNPP_8u_C1_from_host device_malloc2D rImage s
     = (Throw (NppException "AllocationError"), s))
  ∨ ∃ nPitch pixels,
      ImageNPP_8u_C1_from_host device_malloc2D rImage s
      = (Ok {| width := width rImage; height := height rImage;
               pitch := nPitch; data := pixels |}, s)
      ∧ image_valid 1 {| width := width rImage; height := height rImage;
                         pitch := nPitch; data := pixels |}
      ∧ ∀ i, 0 ≤ i < height rImage →
          row pixels nPitch (width rImage) i
          = row (data rImage) (pitch rImage) (width rImage) i.
Proof.
  intros Hmalloc [Hw Hh Hp Hdata Hrange]. unfold ImageNPP_8u_C1_from_host.
  rewrite decide_False by lia.
  destruct (device_malloc2D _ _ _) as [[nPitch block]|] eqn:Halloc;
    [|by left].
  right. destruct (Hmalloc _ _ _ _ _ Halloc) as (Hrow & Hblock & Hsmall).
  rewrite Z.mul_1_r in *.
  destruct (copy_lines_straight (height rImage) (data rImage) (pitch rImage)
              block nPitch (width rImage)) as (pixels & -> & Hlen & Hrows);
    [lia..|].
  exists nPitch, pixels. split_and!; [done | | done].
  split; simpl; [done | done | lia | by rewrite Hlen | done].
Qed.

(** Downloading a valid device image into a host block of the same
    height. *)
Lemma ImageNPP_8u_C1_copyTo_valid {S} (rImage : ImagePacked) pData nPitch
    (s : S) :
  image_valid 1 rImage → width rImage * 1 ≤ nPitch →
  Z.of_nat (length pData) = nPitch * height rImage →
  ∃ pixels,
    ImageNPP_8u_C1_copyTo rImage pData nPitch s = (Ok pixels, s)
    ∧ length pixels = length pData
    ∧ ∀ i, 0 ≤ i < height rImage →
        row pixels nPitch (width rImage) i
        = row (data rImage) (pitch rImage) (width rImage) i.
Proof.
  intros [Hw Hh Hp Hdata Hrange] Hrow Hblock. unfold ImageNPP_8u_C1_copyTo.
  rewrite Z.mul_1_r in *.
  destruct (copy_lines_straight (height rImage) (data rImage) (pitch rImage)
              pData nPitch (width rImage)) as (pixels & -> & Hlen & Hrows);
    [lia..|].
  by exists pixels.
Qed.

(** Saving a valid gray image and loading the file back, with what is known
    of the image loaded. *)
Lemma save_then_load_gray FI host_malloc2D rFileName
    (rImage dest : ImagePacked) w :
  FreeImage_contract FI → host_malloc_wf host_malloc2D →
  image_valid 1 rImage →
  is_Some (Allocate FI (width rImage) (height rImage) 8) →
  is_Some (host_malloc2D (width rImage) (height rImage) 1) →
  ∃ w1 loaded,
    saveImage_8u_C1 FI rFileName rImage w = (Ok tt, w1)
    ∧ loadImage_8u_C1 FI host_malloc2D rFileName (dest, w1)
      = (Ok tt, (loaded, set_output_message true w1))
    ∧ image_valid 1 loaded
    ∧ width loaded = width rImage ∧ height loaded = height rImage
    ∧ ∀ i, 0 ≤ i < height rImage →
        row (data loaded) (pitch loaded) (width rImage) i
        = row (data rImage) (pitch rImage) (width rImage) i.
Proof.
  intros [Halloc Hreading Hlossless] Hmalloc Hvalid [b0 Hb0]
    [[nPitch block] Hblock].
  destruct (saveImage_8u_C1_valid FI rFileName rImage w Halloc Hvalid)
    as [[Hnone _]|(b & Hw & Hh & Hbpp & Hwf & Hsaved & Hsave)];
    [congruence|].
  destruct (Hlossless b Hwf Hbpp)
    as (f & b' & Hencode & Htype & Hload & Hwf' & Hcolor & Hbpp'
        & Hw' & Hh' & Hpixels).
  rewrite Hencode in Hsave. rewrite Hw in Hw', Hpixels.
  rewrite Hh in Hh', Hpixels. rewrite Z.mul_1_r in *.
  set (w1 := set_files (<[rFileName := f]> (files w))
                       (log_save FIF_PGM rFileName w)) in *.
  assert (files w1 !! rFileName = Some f) as Hfile by apply lookup_insert_eq.
  assert (detected_format FI rFileName w1 = FIF_PGM) as Hfmt.
  { unfold detected_format. rewrite Hfile. simpl. rewrite Htype.
    by rewrite decide_False. }
  destruct Hvalid as [Hwpos Hhpos Hp Hdata Hrange].
  destruct (Hmalloc _ _ _ _ _ Hblock) as (Hrow & Hsize & Hsmall).
  destruct (loadImage_8u_C1_loop b' nPitch block) as [pixels Hloop];
    [done | done | lia | lia | by rewrite Hw' | by rewrite Hh'
    | by rewrite Hh' |].
  exists w1, {| width := fi_width b'; height := fi_height b';
               pitch := nPitch; data := pixels |}.
  split_and!; [done | | | done | done |].
  - apply (loadImage_8u_C1_run _ _ _ _ _ f b' nPitch block pixels);
      rewrite ?Hfmt; try done; try lia.
    by rewrite Hw', Hh'.
  - split; simpl; [lia | lia | by rewrite Hw' | | by rewrite Hh'].
    rewrite (copy_lines_length _ _ _ _ _ _ _ _ _ Hloop). by rewrite Hh'.
  - intros i Hi. simpl.
    pose proof (loadImage_8u_C1_rows b' nPitch block pixels Hwf' Hbpp'
                  ltac:(lia) ltac:(lia) ltac:(by rewrite Hw')
                  ltac:(by rewrite Hh') ltac:(by rewrite Hh') Hloop i
                  ltac:(lia)) as Hloaded.
    rewrite Hw', Hh' in Hloaded. rewrite Hloaded.
    rewrite (Hpixels (height rImage - 1 - i)) by lia.
    by rewrite <- (Hsaved i Hi).
Qed.

(** X14.  The device loader never changes the caller's device image unless
    it returns: an exception of the host loader passes through unchanged
    and no upload is attempted, and a failed upload throws as well.  Like
    the host loader it writes nothing and leaves the error handler
    installed. *)
Theorem loadImage_NPP_8u_C1_failure FI host_malloc2D device_malloc2D
    ImageCPU_default name (rImage : ImagePacked) w :
  let host := loadImage_8u_C1 FI host_malloc2D name (ImageCPU_default, w) in
  let out := loadImage_NPP_8u_C1 FI host_malloc2D device_malloc2D
               ImageCPU_default name (rImage, w) in
  (out.1 ≠ Ok tt → out.2.1 = rImage)
  ∧ (∀ e, host.1 = Throw e →
       out = (Throw e, (rImage, set_output_message true w)))
  ∧ out.2.2 = set_output_message true w.
Proof.
  simpl. unfold loadImage_NPP_8u_C1, with_local, bind.
  pose proof (loadImage_8u_C1_world FI host_malloc2D name ImageCPU_default w)
    as Hworld.
  destruct (loadImage_8u_C1 FI host_malloc2D name (ImageCPU_default, w))
    as [[[]|e|u] [oImage w1]]; simpl in *; subst w1.
  - unfold ImageNPP_8u_C1_from_host, throw, ret. run_cases.
  - split_and!; [done | by intros ? [= <-] | done].
  - done.
Qed.

Lemma loadImage_NPP_8u_C1_failure_witness :
  loadImage_NPP_8u_C1 Sample.lib Sample.malloc2D Sample.malloc2D
    Faulty.empty_image "rgb.bmp" (Sample.host2x2, Sample.world)
  = (Throw (NppException
              "FreeImage_GetColorType(pBitmap) == FIC_MINISBLACK"),
     (Sample.host2x2, set_output_message true Sample.world)).
Proof.
  destruct (loadImage_NPP_8u_C1_failure Sample.lib Sample.malloc2D
              Sample.malloc2D Faulty.empty_image "rgb.bmp" Sample.host2x2
              Sample.world) as (_ & Hthrow & _).
  apply Hthrow. by vm_compute.
Defined.

(** What a returned gray load put into the destination. *)
Lemma loadImage_8u_C1_loaded_valid FI host_malloc2D name dest w loaded w' :
  host_malloc_wf host_malloc2D → decodes_wf FI w name →
  loadImage_8u_C1 FI host_malloc2D name (dest, w) = (Ok tt, (loaded, w')) →
  ∃ f b,
    files w !! name = Some f
    ∧ file_load f (detected_format FI name w) = Loaded b
    ∧ width loaded = fi_width b ∧ height loaded = fi_height b
    ∧ image_valid 1 loaded
    ∧ ∀ i, 0 ≤ i < fi_height b →
        row (data loaded) (pitch loaded) (fi_width b) i
        = row (fi_bits b) (fi_pitch b) (fi_width b) (fi_height b - 1 - i).
Proof.
  intros Hmalloc Hwf Hrun.
  destruct (loadImage_8u_C1_inv _ _ _ _ _ _ _ Hrun)
    as (f & b & nPitch & block & pixels & Hfile & _ & _ & Hload & _ & Hbpp
        & Hw & Hh & Halloc & Hcopy & -> & _).
  destruct (Hwf _ _ _ Hfile Hload) as [Hb _].
  destruct (Hmalloc _ _ _ _ _ Halloc) as (Hrow & Hblock & Hsmall).
  exists f, b. split_and!; [done..| |].
  - split; simpl; [done..| |done].
    by rewrite (copy_lines_length _ _ _ _ _ _ _ _ _ Hcopy).
  - simpl. by eapply loadImage_8u_C1_rows.
Qed.

(** X15.  When the device loader returns, the caller's device image has the
    size of the bitmap FreeImage loaded and row [i] of it holds stored line
    [height - 1 - i] of that bitmap: the flip made on the host survives the
    upload, whatever the host and device strides. *)
Theorem loadImage_NPP_8u_C1_rows FI host_malloc2D device_malloc2D
    ImageCPU_default name (rImage : ImagePacked) w loaded w' :
  host_malloc_wf host_malloc2D → host_malloc_wf device_malloc2D →
  decodes_wf FI w name →
  loadImage_NPP_8u_C1 FI host_malloc2D device_malloc2D ImageCPU_default name
    (rImage, w) = (Ok tt, (loaded, w')) →
  ∃ f b,
    files w !! name = Some f
    ∧ file_load f (detected_format FI name w) = Loaded b
    ∧ width loaded = fi_width b ∧ height loaded = fi_height b
    ∧ ∀ i, 0 ≤ i < fi_height b →
        row (data loaded) (pitch loaded) (fi_width b) i
        = row (fi_bits b) (fi_pitch b) (fi_width b) (fi_height b - 1 - i).
Proof.
  intros Hhost Hdevice Hwf.
  unfold loadImage_NPP_8u_C1, with_local, bind.
  destruct (loadImage_8u_C1 FI host_malloc2D name (ImageCPU_default, w))
    as [[[]|e|u] [oImage w1]] eqn:Hrun; simpl; [|done..].
  destruct (loadImage_8u_C1_loaded_valid _ _ _ _ _ _ _ Hhost Hwf Hrun)
    as (f & b & Hfile & Hload & Hw & Hh & Hvalid & Hrows).
  destruct (ImageNPP_8u_C1_from_host_valid device_malloc2D oImage
              (rImage, w1) Hdevice Hvalid)
    as [[_ ->]|(nPitch & pixels & -> & _ & Hup)]; [done|].
  intros [= <- <-]. exists f, b. simpl. split_and!; [done..|].
  intros i Hi. rewrite <- Hrows by done. rewrite <- Hw. apply Hup. lia.
Qed.

Lemma loadImage_NPP_8u_C1_rows_witness :
  let loaded := (loadImage_NPP_8u_C1 Sample.lib Sample.malloc2D
                   Sample.malloc2D Faulty.empty_image "gray.pgm"
                   (Sample.blank, Sample.world)).2.1 in
  row (data loaded) (pitch loaded) 2 0 = [Byte.x03; Byte.x04]
  ∧ row (data loaded) (pitch loaded) 2 1 = [Byte.x01; Byte.x02].
Proof.
  destruct (loadImage_NPP_8u_C1 _ _ _ _ _ _) as [r [loaded w']] eqn:Hrun.
  assert (r = Ok tt) as ->
    by (by vm_compute in Hrun; injection Hrun as <- _ _).
  destruct (loadImage_NPP_8u_C1_rows Sample.lib Sample.malloc2D
              Sample.malloc2D Faulty.empty_image "gray.pgm" Sample.blank
              Sample.world loaded w' Sample_malloc2D_wf Sample_malloc2D_wf
              Sample_decodes_gray_pgm Hrun)
    as (f & b & Hfile & Hload & _ & _ & Hrows).
  vm_compute in Hfile. injection Hfile as <-.
  vm_compute in Hload. injection Hload as <-.
  simpl. split.
  - etrans; [apply (Hrows 0); simpl; lia | by vm_compute].
  - etrans; [apply (Hrows 1); simpl; lia | by vm_compute].
Defined.

(** X16.  Saving a valid device image and loading the written file into a
    device image gives back the same size and the same pixels in every row,
    whatever the strides of the device and host buffers on the way.  The
    codec is assumed to keep its contract and the allocations to succeed. *)
Theorem save_load_roundtrip_NPP FI host_malloc2D device_malloc2D
    ImageCPU_default rFileName (rImage dest : ImagePacked) w :
  FreeImage_contract FI →
  host_malloc_wf host_malloc2D → host_malloc_wf device_malloc2D →
  image_valid 1 rImage →
  is_Some (Allocate FI (width rImage) (height rImage) 8) →
  is_Some (host_malloc2D (width rImage) (height rImage) 1) →
  is_Some (device_malloc2D (width rImage) (height rImage) 1) →
  ∃ w1 loaded w2,
    saveImage_NPP_8u_C1 FI host_malloc2D rFileName rImage w = (Ok tt, w1)
    ∧ loadImage_NPP_8u_C1 FI host_malloc2D device_malloc2D ImageCPU_default
        rFileName (dest, w1) = (Ok tt, (loaded, w2))
    ∧ width loaded = width rImage ∧ height loaded = height rImage
    ∧ ∀ i, 0 ≤ i < height rImage →
        row (data loaded) (pitch loaded) (width rImage) i
        = row (data rImage) (pitch rImage) (width rImage) i.
Proof.
  intros Hcontract Hhost Hdevice Hvalid Hbitmap [[nPitch block] Hblock]
    Hdev.
  pose proof Hvalid as [Hw Hh Hp Hdata Hrange].
  destruct (Hhost _ _ _ _ _ Hblock) as (Hrow & Hsize & Hsmall).
  (* the host copy made by saveImage *)
  destruct (ImageNPP_8u_C1_copyTo_valid rImage block nPitch w Hvalid Hrow
              Hsize) as (pixels & Hdown & Hlen & Hcopy).
  set (oHostImage := {| width := width rImage; height := height rImage;
                        pitch := nPitch; data := pixels |}).
  assert (image_valid 1 oHostImage) as Hvalid'
    by (split; simpl; [done | done | done | by rewrite Hlen | done]).
  destruct (save_then_load_gray FI host_malloc2D rFileName oHostImage
              ImageCPU_default w Hcontract Hhost Hvalid' Hbitmap
              ltac:(simpl; rewrite Hblock; eauto))
    as (w1 & oImage & Hsave & Hload & Hvalid'' & Hw'' & Hh'' & Hrows).
  simpl in Hw'', Hh'', Hrows.
  (* the upload made by loadImage *)
  destruct (ImageNPP_8u_C1_from_host_valid device_malloc2D oImage
              (dest, set_output_message true w1) Hdevice Hvalid'')
    as [[Hnone _]|(dPitch & dPixels & Hup & _ & Huprows)].
  { rewrite Hw'', Hh'' in Hnone. rewrite Hnone in Hdev.
    by destruct Hdev. }
  exists w1, {| width := width oImage; height := height oImage;
               pitch := dPitch; data := dPixels |},
    (set_output_message true w1).
  split_and!; [| |done|done|].
  - unfold saveImage_NPP_8u_C1, ImageCPU_new, bind.
    rewrite decide_False by lia. rewrite Hblock. simpl.
    by rewrite Hdown.
  - unfold loadImage_NPP_8u_C1, with_local, bind. rewrite Hload. simpl.
    by rewrite Hup.
  - intros i Hi. simpl. rewrite Hw'', Hh'' in Huprows.
    rewrite Huprows by done. rewrite Hrows by done. by apply Hcopy.
Qed.

Lemma save_load_roundtrip_NPP_witness :
  ∃ w1 loaded w2,
    saveImage_NPP_8u_C1 Sample.lib Sample.malloc2D "out.bmp" Sample.host2x2
      Sample.world = (Ok tt, w1)
    ∧ loadImage_NPP_8u_C1 Sample.lib Sample.malloc2D Sample.malloc2D
        Faulty.empty_image "out.bmp" (Sample.blank, w1)
      = (Ok tt, (loaded, w2))
    ∧ width loaded = 2 ∧ height loaded = 2
    ∧ ∀ i, 0 ≤ i < 2 →
        row (data loaded) (pitch loaded) 2 i
        = row (data Sample.host2x2) 3 2 i.
Proof.
  apply (save_load_roundtrip_NPP Sample.lib Sample.malloc2D Sample.malloc2D
           Faulty.empty_image "out.bmp" Sample.host2x2 Sample.blank
           Sample.world).
  - apply Sample_lib_contract.
  - apply Sample_malloc2D_wf.
  - apply Sample_malloc2D_wf.
  - apply Sample_host2x2_valid.
  - eexists. vm_compute. reflexivity.
  - eexists. vm_compute. reflexivity.
  - eexists. vm_compute. reflexivity.
Defined.

(** X17.  What a successful save of a valid device image writes: the file
    at the path is the PGM encoding of a bitmap of the image's size in which
    stored line [height - 1 - i] holds row [i] of the device image.  The
    device image is downloaded into a host copy first; a host allocation
    that fails makes the call throw with the disk untouched. *)
Theorem saveImage_NPP_8u_C1_stores_device_rows FI host_malloc2D rFileName
    (rImage : ImagePacked) w :
  Allocate_contract FI → host_malloc_wf host_malloc2D →
  image_valid 1 rImage →
  (host_malloc2D (width rImage) (height rImage) 1 = None →
   saveImage_NPP_8u_C1 FI host_malloc2D rFileName rImage w
   = (Throw (NppException "AllocationError"), w))
  ∧ (∀ w',
       saveImage_NPP_8u_C1 FI host_malloc2D rFileName rImage w
       = (Ok tt, w') →
       ∃ b f,
         Encode FI FIF_PGM b = Some f ∧ files w' !! rFileName = Some f
         ∧ fi_width b = width rImage ∧ fi_height b = height rImage
         ∧ ∀ i, 0 ≤ i < height rImage →
             row (fi_bits b) (fi_pitch b) (width rImage)
                 (height rImage - 1 - i)
             = row (data rImage) (pitch rImage) (width rImage) i).
Proof.
  intros Halloc Hhost Hvalid.
  pose proof Hvalid as [Hw Hh Hp Hdata Hrange].
  unfold saveImage_NPP_8u_C1, ImageCPU_new, bind.
  rewrite decide_False by lia. split.
  - by intros ->.
  - intros w'.
    destruct (host_malloc2D _ _ _) as [[nPitch block]|] eqn:Hblock; [|done].
    simpl. destruct (Hhost _ _ _ _ _ Hblock) as (Hrow & Hsize & Hsmall).
    destruct (ImageNPP_8u_C1_copyTo_valid rImage block nPitch w Hvalid Hrow
                Hsize) as (pixels & -> & Hlen & Hcopy).
    set (oHostImage := set_data pixels _).
    assert (image_valid 1 oHostImage) as Hvalid'
      by (split; simpl; [done | done | done | by rewrite Hlen | done]).
    intros Hrun.
    destruct (saveImage_8u_C1_valid FI rFileName oHostImage w Halloc Hvalid')
      as [[_ Hthrow]|(b & Hwb & Hhb & _ & _ & Hrows & Hsave)];
      [congruence|].
    rewrite Hrun in Hsave.
    destruct (Encode FI FIF_PGM b) as [f|] eqn:Hencode;
      [|by destruct (save_failed FI FIF_PGM b rFileName w Hencode)
           as (? & Hfail & _); rewrite Hfail in Hsave].
    injection Hsave as ->. exists b, f.
    split_and!; [done | apply lookup_insert_eq | done | done |].
    intros i Hi. specialize (Hrows i Hi). simpl in Hrows.
    rewrite Z.mul_1_r in Hrows. rewrite Hrows. by apply Hcopy.
Qed.

Lemma saveImage_NPP_8u_C1_stores_device_rows_witness :
  ∃ b, row (fi_bits b) (fi_pitch b) 2 1 = [Byte.x03; Byte.x04]
       ∧ row (fi_bits b) (fi_pitch b) 2 0 = [Byte.x01; Byte.x02]
       ∧ is_Some (Sample.encode FIF_PGM b).
Proof.
  destruct (saveImage_NPP_8u_C1 Sample.lib Sample.malloc2D "out.bmp"
              Sample.host2x2 Sample.world) as [r w'] eqn:Hrun.
  assert (r = Ok tt) as ->
    by (by vm_compute in Hrun; injection Hrun as <- _).
  destruct (saveImage_NPP_8u_C1_stores_device_rows Sample.lib
              Sample.malloc2D "out.bmp" Sample.host2x2 Sample.world
              Sample_lib_allocates Sample_malloc2D_wf Sample_host2x2_valid)
    as [_ Hok].
  destruct (Hok w' Hrun) as (b & f & Hencode & _ & _ & _ & Hrows).
  exists b. split_and!.
  - etrans; [apply (Hrows 0); simpl; lia | by vm_compute].
  - etrans; [apply (Hrows 1); simpl; lia | by vm_compute].
  - eauto.
Defined.

(** X18.  The four-channel loader stores an image exactly when the file is
    there, FreeImage loads it as PNG, the 32-bit conversion succeeds with
    positive width and height, and the host allocator provides the buffer.
    (Bitmaps well formed, allocator sound.) *)
Theorem loadImage_8u_C4_stores_iff FI host_malloc2D name
    (dest : ImagePacked) w :
  host_malloc_wf host_malloc2D → decodes_wf FI w name →
  (loadImage_8u_C4 FI host_malloc2D name (dest, w)).1 = Undef MissingReturn
  ↔ ∃ f d b,
      files w !! name = Some f
      ∧ file_load f FIF_PNG = Loaded d
      ∧ ConvertTo32Bits FI d = Some b
      ∧ 0 < fi_width b ∧ 0 < fi_height b
      ∧ is_Some (host_malloc2D (fi_width b) (fi_height b) 4).
Proof.
  intros Hmalloc Hwf. split.
  - destruct (loadImage_8u_C4 _ _ _ _) as [r [loaded w']] eqn:Hrun.
    simpl. intros ->.
    destruct (loadImage_8u_C4_inv _ _ _ _ _ _ _ Hrun)
      as (f & d & b & nPitch & block & pixels & Hfile & Hload & Hconv & Hw
          & Hh & _ & Halloc & _).
    destruct (Hwf _ _ _ Hfile Hload) as [_ Hb].
    destruct (Hb _ Hconv) as [Hwfb Hbpp].
    destruct (FIBITMAP_wf_int b) as [Hwi Hhi]; [done | lia | done..|].
    rewrite Hwi, Hhi in *.
    exists f, d, b. rewrite Halloc. split_and!; eauto.
  - intros (f & d & b & Hfile & Hload & Hconv & Hw & Hh
            & [[nPitch block] Halloc]).
    destruct (Hwf _ _ _ Hfile Hload) as [_ Hb].
    destruct (Hb _ Hconv) as [Hwfb Hbpp].
    destruct (Hmalloc _ _ _ _ _ Halloc) as (Hrow & Hblock & Hsmall).
    destruct (loadImage_8u_C4_loop b nPitch block) as [pixels Hloop];
      [done..|].
    assert (wrap_int (fi_width b) = fi_width b
            ∧ wrap_int (fi_height b) = fi_height b) as [Hwi Hhi].
    { destruct Hwfb as [_ _ _ Hpitch _ Hrange]. rewrite Hbpp in Hpitch.
      split; apply wrap_int_small; nia. }
    pose proof (loadImage_8u_C4_run FI host_malloc2D name dest w f d b
                  nPitch block pixels Hfile Hload Hconv) as Hrun.
    rewrite Hwi, Hhi in Hrun.
    assert (fi_width b * 4 ≤ INT_MAX) as Hint by (unfold INT_MAX; nia).
    by rewrite (Hrun Hw Hh Hint Halloc Hloop).
Qed.

Lemma loadImage_8u_C4_stores_iff_witness :
  (loadImage_8u_C4 Sample.lib Sample.malloc2D "gray.png"
     (Sample.blank, Sample.world)).1 = Undef MissingReturn.
Proof.
  assert (decodes_wf Sample.lib Sample.world "gray.png") as Hwf.
  { intros f fif d Hfile Hload.
    unfold Sample.world, Sample.disk in Hfile. simplify_map_eq.
    case_decide; [|done]. simplify_eq.
    split; [apply Sample_gray2x2_wf|].
    intros b Hconv. vm_compute in Hconv. injection Hconv as <-. by split. }
  apply (loadImage_8u_C4_stores_iff Sample.lib Sample.malloc2D "gray.png"
           Sample.blank Sample.world Sample_malloc2D_wf Hwf).
  eexists (Sample.stored FIF_PNG Sample.gray2x2), Sample.gray2x2, _.
  split_and!; [by vm_compute | done | by vm_compute | done | done |].
  eexists. vm_compute. reflexivity.
Defined.
